(** * PyAudacity: the pipe transport [do] and the wrapper [save]

    A shallow embedding of [src/pyaudacity/__init__.py]: the function [do]
    that exchanges one macro command with a running Audacity over its two
    named pipes, the wrapper [save] built on it, and a number of the other
    wrappers that validate their arguments before they call [do], with the
    enumerations of [src/pyaudacity/enums.py] they use.

    Python strings are [string]; the operating system is an explicit state
    (the paths that exist, the file objects that are open, how far the
    inbound pipe has been consumed) together with the chronological trace of
    the calls made into it; the three ways a Python call can go (return,
    raise, still be running) are the [outcome] of a small monad. *)

From Stdlib Require Import Ascii ZArith Lia DecimalString.
From Stdlib Require String.
From stdpp Require Import base gmap sets list strings.

Local Open Scope stdpp_scope.

(** ** Python strings *)

Module PyStr.

(** The characters Python writes [\n], [\r], [\0] and the double quote. *)
Definition LF : string := String (ascii_of_nat 10) EmptyString.
Definition CR : string := String (ascii_of_nat 13) EmptyString.
Definition NUL : string := String (ascii_of_nat 0) EmptyString.
Definition DQ : string := String (ascii_of_nat 34) EmptyString.

(** [len(s) > 0] *)
Definition nonempty (s : string) : bool :=
  match s with EmptyString => false | String _ _ => true end.

(** [needle in hay], Python's substring test. *)
Fixpoint contains (needle hay : string) : bool :=
  String.prefix needle hay
  || match hay with
     | EmptyString => false
     | String _ rest => contains needle rest
     end.

(** [str(n)] for a non-negative [int]. *)
Definition str_nat (n : nat) : string :=
  NilZero.string_of_uint (Nat.to_uint n).

(** [''.join(l)] *)
Fixpoint join (l : list string) : string :=
  match l with
  | [] => EmptyString
  | s :: l' => s +:+ join l'
  end.

End PyStr.
Import PyStr.

(** ** Exceptions and outcomes *)

(** The exception classes the modelled code can raise: the module's own
    [PyAudacityException] (one message argument) and the [SystemExit] of
    [sys.exit()]. *)
Inductive exn : Type :=
| PyAudacityException (args : string)
| SystemExit.

(** How a call stands after the steps it was given: it returned a value, it
    raised, or it is still inside the [while True] loop. *)
Inductive outcome (A : Type) : Type :=
| Returned (a : A)
| Raised (e : exn)
| Running.
Arguments Returned {A} a.
Arguments Raised {A} e.
Arguments Running {A}.

(** ** The operating system as seen by the module *)

Inductive mode : Type := ModeR | ModeW.

(** A Python file object: the name it was opened under and its mode. *)
Record file : Type := File { f_name : string; f_mode : mode }.

#[global] Instance mode_eq_dec : EqDecision mode.
Proof. solve_decision. Defined.
#[global] Instance file_eq_dec : EqDecision file.
Proof. solve_decision. Defined.

Inductive event : Type :=
| EvExists (p : string)                  (* os.path.exists(p), Path(p).exists() *)
| EvSleep                                (* time.sleep(0.0001) *)
| EvOpen (p : string) (m : mode)         (* _open(p, m) *)
| EvWrite (p : string) (data : string)   (* f.write(data) *)
| EvFlush (p : string)                   (* f.flush() *)
| EvReadline (p : string) (line : string)(* f.readline(), with its result *)
| EvClose (p : string)                   (* f.close() *)
| EvUnlink (p : string).                 (* os.unlink(p) *)

(** What a call cannot change: the platform, the user id, and the lines the
    peer delivers on the inbound pipe, one per [readline]; an exhausted pipe
    delivers the empty string, as [readline] does at end of input. *)
Record env : Type := Env {
  sys_platform : string;
  os_getuid : nat;
  inbound : nat -> string
}.

Record state : Type := State {
  fs : gset string;        (* the paths that exist *)
  cursor : nat;            (* lines of the inbound pipe already consumed *)
  opened : list file;      (* file objects currently open *)
  trace : list event       (* every call made so far, oldest first *)
}.

(** A finite inbound pipe: the given lines, then end of input. *)
Definition of_lines (l : list string) : nat -> string :=
  fun n => nth n l EmptyString.

(** The inbound pipe as a later call finds it, [k] lines further on. *)
Definition advance (E : env) (k : nat) : env :=
  Env (sys_platform E) (os_getuid E) (fun n => inbound E (k + n)).

(** ** The monad of calls *)

Definition IO (A : Type) : Type := state -> outcome A * state.

Definition ret {A} (a : A) : IO A := fun st => (Returned a, st).

Definition bind {A B} (m : IO A) (k : A -> IO B) : IO B :=
  fun st =>
    match m st with
    | (Returned a, st') => k a st'
    | (Raised e, st') => (Raised e, st')
    | (Running, st') => (Running, st')
    end.

(** The statement [raise e]. *)
Definition raise (e : exn) : IO unit := fun st => (Raised e, st).

(** The loop has not finished within the steps it was given. *)
Definition still_running {A} : IO A := fun st => (Running, st).

Declare Scope io_scope.
Delimit Scope io_scope with io.
Notation "x <- c1 ;; c2" := (bind c1 (fun x => c2))
  (at level 100, c1 at next level, right associativity) : io_scope.
Notation "c1 ;; c2" := (bind c1 (fun _ => c2))
  (at level 100, right associativity) : io_scope.
Local Open Scope io_scope.

Definition log (ev : event) (st : state) : state :=
  State (fs st) (cursor st) (opened st) (trace st ++ [ev]).

(** Removes the first occurrence of a file object from the open table. *)
Fixpoint remove_first (f : file) (l : list file) : list file :=
  match l with
  | [] => []
  | g :: l' => if decide (f = g) then l' else g :: remove_first f l'
  end.

Module Os.

(** [os.path.exists(p)] *)
Definition path_exists (p : string) : IO bool :=
  fun st => (Returned (bool_decide (p ∈ fs st)), log (EvExists p) st).

(** [time.sleep(0.0001)] *)
Definition sleep : IO unit :=
  fun st => (Returned tt, log EvSleep st).

(** [sys.exit()] *)
Definition sys_exit : IO unit := raise SystemExit.

(** [os.unlink(p)] on an existing file. *)
Definition unlink (p : string) : IO unit :=
  fun st =>
    (Returned tt,
     State (fs st ∖ {[p]}) (cursor st) (opened st) (trace st ++ [EvUnlink p])).

(** [_open(p, m)] on a path whose existence was just checked. *)
Definition open (p : string) (m : mode) : IO file :=
  fun st =>
    (Returned (File p m),
     State (fs st) (cursor st) (File p m :: opened st)
           (trace st ++ [EvOpen p m])).

Definition write (f : file) (data : string) : IO unit :=
  fun st => (Returned tt, log (EvWrite (f_name f) data) st).

Definition flush (f : file) : IO unit :=
  fun st => (Returned tt, log (EvFlush (f_name f)) st).

Definition close (f : file) : IO unit :=
  fun st =>
    (Returned tt,
     State (fs st) (cursor st) (remove_first f (opened st))
           (trace st ++ [EvClose (f_name f)])).

End Os.

Section Transport.

Variable E : env.

(** [read_pipe.readline()]: the next line of the inbound pipe. *)
Definition readline (f : file) : IO string :=
  fun st =>
    let line := inbound E (cursor st) in
    (Returned line,
     State (fs st) (S (cursor st)) (opened st)
           (trace st ++ [EvReadline (f_name f) line])).

Definition is_win32 : bool := String.eqb (sys_platform E) "win32".

Definition write_pipe_name : string :=
  if is_win32 then "\\.\pipe\ToSrvPipe"
  else "/tmp/audacity_script_pipe.to." +:+ str_nat (os_getuid E).

Definition read_pipe_name : string :=
  if is_win32 then "\\.\pipe\FromSrvPipe"
  else "/tmp/audacity_script_pipe.from." +:+ str_nat (os_getuid E).

Definition eol : string :=
  if is_win32 then CR +:+ LF +:+ NUL else LF.

Definition not_exist_msg : string :=
  " does not exist.  Ensure Audacity is running and mod-script-pipe is set to Enabled in the Preferences window.".

Definition failure_marker : string := "BatchCommand finished: Failed!".

(** The [while True] loop of [do], entered with the current values of
    [response] and [line]; [fuel] bounds the iterations run. *)
Fixpoint read_loop (fuel : nat) (read_pipe : file) (response line : string)
  : IO string :=
  match fuel with
  | 0 => still_running
  | S fuel' =>
      let response := response +:+ line in
      line <- readline read_pipe ;;
      if String.eqb line LF && nonempty response
      then ret response
      else read_loop fuel' read_pipe response line
  end.

Definition do (fuel : nat) (command : string) : IO string :=
  ex <- Os.path_exists write_pipe_name ;;
  (if negb ex
   then (raise (PyAudacityException (write_pipe_name +:+ not_exist_msg)) ;;
         Os.sys_exit)
   else ret tt) ;;
  Os.sleep ;;
  ex <- Os.path_exists read_pipe_name ;;
  (if negb ex
   then (raise (PyAudacityException (read_pipe_name +:+ not_exist_msg)) ;;
         Os.sys_exit)
   else ret tt) ;;
  Os.sleep ;;
  write_pipe <- Os.open write_pipe_name ModeW ;;
  read_pipe <- Os.open read_pipe_name ModeR ;;
  Os.write write_pipe (command +:+ eol) ;;
  Os.flush write_pipe ;;
  response <- read_loop fuel read_pipe EmptyString EmptyString ;;
  Os.close write_pipe ;;
  Os.sleep ;;
  Os.close read_pipe ;;
  (if contains failure_marker response
   then raise (PyAudacityException response)
   else ret tt) ;;
  ret response.

End Transport.

(** ** The wrapper [save] *)

(** The Python values a caller can pass where [save] expects a [bool]. *)
Inductive pyval : Type :=
| PyNone
| PyBool (b : bool)
| PyInt (z : Z)
| PyStr (s : string).

Module PyVal.

(** The truth value Python's [and] and [if] give a value. *)
Definition truthy (v : pyval) : bool :=
  match v with
  | PyNone => false
  | PyBool b => b
  | PyInt z => negb (Z.eqb z 0)
  | PyStr s => nonempty s
  end.

(** [isinstance(v, bool)] *)
Definition isinstance_bool (v : pyval) : bool :=
  match v with PyBool _ => true | _ => false end.

(** [str(type(v))] *)
Definition str_type (v : pyval) : string :=
  match v with
  | PyNone => "<class 'NoneType'>"
  | PyBool _ => "<class 'bool'>"
  | PyInt _ => "<class 'int'>"
  | PyStr _ => "<class 'str'>"
  end.

(** [str(v)], which is what the [{}] of [str.format] inserts. *)
Definition str (v : pyval) : string :=
  match v with
  | PyNone => "None"
  | PyBool true => "True"
  | PyBool false => "False"
  | PyInt z => NilZero.string_of_int (Z.to_int z)
  | PyStr s => s
  end.

End PyVal.

Section Wrappers.

Variable E : env.

(** [filename] is the path as a [str]; [Path(filename)] names the same
    entry of the file system. *)
Definition save (fuel : nat) (filename : string)
    (add_to_history compress allow_overwrite : pyval) : IO string :=
  (if PyVal.truthy allow_overwrite
   then (ex <- Os.path_exists filename ;;
         if ex then Os.unlink filename else ret tt)
   else ret tt) ;;
  (if negb (PyVal.isinstance_bool add_to_history)
   then raise (PyAudacityException
                 ("add_to_history argument must be a bool, not"
                  +:+ PyVal.str_type add_to_history))
   else ret tt) ;;
  (if negb (PyVal.isinstance_bool compress)
   then raise (PyAudacityException
                 ("compress argument must be a bool, not"
                  +:+ PyVal.str_type compress))
   else ret tt) ;;
  do E fuel
     ("SaveProject2: Filename=" +:+ DQ +:+ filename +:+ DQ
      +:+ " AddToHistory=" +:+ DQ +:+ PyVal.str add_to_history +:+ DQ
      +:+ " Compress=" +:+ DQ +:+ PyVal.str compress +:+ DQ).

(** [save(filename)], every other parameter at its default:
    [add_to_history=False, compress=False, allow_overwrite=True]. *)
Definition save_default (fuel : nat) (filename : string) : IO string :=
  save fuel filename (PyBool false) (PyBool false) (PyBool true).

End Wrappers.

(** ** What the inbound pipe delivers *)

Section Inbound.

Variable E : env.

(** The [n] lines the pipe delivers from position [c] on. *)
Fixpoint lines_from (c n : nat) : list string :=
  match n with
  | 0 => []
  | S n' => inbound E c :: lines_from (S c) n'
  end.

(** The text buffered after [n] lines have been read from position [c]. *)
Definition buffered (c n : nat) : string := join (lines_from c n).

(** The test of the loop's [if] at the [n]-th line read from position [c],
    when the loop was entered with [acc] already in the buffer. *)
Definition stops (acc : string) (c n : nat) : bool :=
  String.eqb (inbound E (c + n)) LF && nonempty (acc +:+ buffered c n).

(** [n] is the first line at which the loop's test succeeds. *)
Definition first_stop (c n : nat) : Prop :=
  stops EmptyString c n = true /\
  forall i, i < n -> stops EmptyString c i = false.

(** The [readline] calls of [n] iterations, as they appear in the trace. *)
Definition reads (p : string) (c n : nat) : list event :=
  map (EvReadline p) (lines_from c n).

(** Everything [do] does before it starts to read. *)
Definition prelude (command : string) : list event :=
  [ EvExists (write_pipe_name E); EvSleep;
    EvExists (read_pipe_name E); EvSleep;
    EvOpen (write_pipe_name E) ModeW; EvOpen (read_pipe_name E) ModeR;
    EvWrite (write_pipe_name E) (command +:+ eol E);
    EvFlush (write_pipe_name E) ].

(** Everything [do] does after the loop has ended. *)
Definition closing : list event :=
  [ EvClose (write_pipe_name E); EvSleep; EvClose (read_pipe_name E) ].

(** The last statements of [do], given the accumulated response. *)
Definition verdict (response : string) : outcome string :=
  if contains failure_marker response
  then Raised (PyAudacityException response)
  else Returned response.

End Inbound.

(** Events that touch a pipe's contents or its open state. *)
Definition is_write (ev : event) : bool :=
  match ev with EvWrite _ _ => true | _ => false end.
Definition is_readline (ev : event) : bool :=
  match ev with EvReadline _ _ => true | _ => false end.
Definition is_open (ev : event) : bool :=
  match ev with EvOpen _ _ => true | _ => false end.
Definition is_close (ev : event) : bool :=
  match ev with EvClose _ => true | _ => false end.
Definition is_unlink (ev : event) : bool :=
  match ev with EvUnlink _ => true | _ => false end.
Definition is_pipe_io (ev : event) : bool :=
  is_open ev || is_write ev || is_readline ev || is_close ev
  || match ev with EvFlush _ => true | _ => false end.

(** The events a call added to the trace it started from. *)
Definition emitted (st st' : state) : list event :=
  drop (length (trace st)) (trace st').

(** What a handler can ask of a caught exception: its class and [str(e)]. *)
Inductive exn_class : Type := ClsPyAudacityException | ClsSystemExit.

Definition class_of (e : exn) : exn_class :=
  match e with
  | PyAudacityException _ => ClsPyAudacityException
  | SystemExit => ClsSystemExit
  end.

Definition str_of (e : exn) : string :=
  match e with
  | PyAudacityException args => args
  | SystemExit => EmptyString
  end.

(** The four ways a call of [do] given [fuel] loop iterations can stand,
    read off the source: raised at the first existence check, raised at the
    second, gone through the whole exchange, or still reading. *)
Inductive do_run (E : env) (command : string) (st : state) (fuel : nat)
  : outcome string * state -> Prop :=
| RunNoWritePipe :
    write_pipe_name E ∉ fs st ->
    do_run E command st fuel
      (Raised (PyAudacityException (write_pipe_name E +:+ not_exist_msg)),
       State (fs st) (cursor st) (opened st)
             (trace st ++ [EvExists (write_pipe_name E)]))
| RunNoReadPipe :
    write_pipe_name E ∈ fs st ->
    read_pipe_name E ∉ fs st ->
    do_run E command st fuel
      (Raised (PyAudacityException (read_pipe_name E +:+ not_exist_msg)),
       State (fs st) (cursor st) (opened st)
             (trace st ++ [EvExists (write_pipe_name E); EvSleep;
                           EvExists (read_pipe_name E)]))
| RunCompleted (n : nat) :
    write_pipe_name E ∈ fs st ->
    read_pipe_name E ∈ fs st ->
    first_stop E (cursor st) n ->
    n < fuel ->
    do_run E command st fuel
      (verdict (buffered E (cursor st) n),
       State (fs st) (cursor st + S n) (opened st)
             (trace st ++ prelude E command
                ++ reads E (read_pipe_name E) (cursor st) (S n)
                ++ closing E))
| RunReading :
    write_pipe_name E ∈ fs st ->
    read_pipe_name E ∈ fs st ->
    (forall i, i < fuel -> stops E EmptyString (cursor st) i = false) ->
    do_run E command st fuel
      (Running,
       State (fs st) (cursor st + fuel)
             (File (read_pipe_name E) ModeR
                :: File (write_pipe_name E) ModeW :: opened st)
             (trace st ++ prelude E command
                ++ reads E (read_pipe_name E) (cursor st) fuel)).

(** ** A sample session

    A POSIX machine, user 1000, with Audacity's two pipes in place and
    nothing done yet. *)
Definition posix_pipes : gset string :=
  {[ "/tmp/audacity_script_pipe.to.1000";
     "/tmp/audacity_script_pipe.from.1000" ]}.

Definition idle (files : gset string) : state := State files 0 [] [].

Definition posix_peer (lines : list string) : env :=
  Env "linux" 1000 (of_lines lines).

(** The same on Windows, where the pipes have fixed names. *)
Definition win32_pipes : gset string :=
  {[ "\\.\pipe\ToSrvPipe"; "\\.\pipe\FromSrvPipe" ]}.

Definition win32_peer (lines : list string) : env :=
  Env "win32" 0 (of_lines lines).

(** ** More of the module: values, text and enumerations

    The wrappers below take Python values. Numbers are Python [int]s and
    text is ASCII: [float] arguments and [Path] objects are outside the
    model. *)

Module PyType.


(** [isinstance(v, int)], and in this model [isinstance(v, (float, int))]:
    a [bool] is an [int]. *)
Definition isinstance_int (v : pyval) : bool :=
  match v with PyBool _ | PyInt _ => true | _ => false end.

(** [isinstance(v, str)], and in this model [isinstance(v, (Path, str))]. *)
Definition isinstance_str (v : pyval) : bool :=
  match v with PyStr _ => true | _ => false end.


(** The number an [int] or [bool] stands for in a comparison. *)
Definition int_value (v : pyval) : Z :=
  match v with
  | PyInt z => z
  | PyBool true => 1
  | _ => 0
  end.


End PyType.

Module PyAscii.

Definition is_upper (a : ascii) : bool :=
  (65 <=? nat_of_ascii a) && (nat_of_ascii a <=? 90).

Definition is_lower (a : ascii) : bool :=
  (97 <=? nat_of_ascii a) && (nat_of_ascii a <=? 122).

(** A letter: the characters [str.title] treats as cased. *)
Definition is_cased (a : ascii) : bool := is_upper a || is_lower a.

Definition upper (a : ascii) : ascii :=
  if is_lower a then ascii_of_nat (nat_of_ascii a - 32) else a.

Definition lower (a : ascii) : ascii :=
  if is_upper a then ascii_of_nat (nat_of_ascii a + 32) else a.

(** [s.lower()] *)
Fixpoint str_lower (s : string) : string :=
  match s with
  | EmptyString => EmptyString
  | String a r => String (lower a) (str_lower r)
  end.

(** [s.title()]: a letter that follows a letter is lowered, any other
    letter is raised. *)
Fixpoint title_from (previous_is_cased : bool) (s : string) : string :=
  match s with
  | EmptyString => EmptyString
  | String a r =>
      String (if previous_is_cased then lower a else upper a)
             (title_from (is_cased a) r)
  end.

Definition title (s : string) : string := title_from false s.

(** [s[0].upper() + s[1:].lower()], for a string that is not empty; the
    callers reach it only after a test the empty string fails. *)
Definition upper_first_lower_rest (s : string) : string :=
  match s with
  | EmptyString => EmptyString
  | String a r => String (upper a) (str_lower r)
  end.

(** Every character is below 128. *)
Fixpoint is_ascii (s : string) : bool :=
  match s with
  | EmptyString => true
  | String a r => (nat_of_ascii a <? 128) && is_ascii r
  end.

End PyAscii.

(** [src/pyaudacity/enums.py]: an [AudacityOptionEnum] is an enumeration
    whose [__str__] is the member's value. *)
Module Enums.

Class AudacityOptionEnum (A : Type) : Type := {
  value : A -> string;
  members : list A
}.

(** [str(member)] *)
Definition str_member {A : Type} `{AudacityOptionEnum A} (m : A) : string :=
  value m.

Inductive NoiseType : Type := WHITE | PINK | BROWNIAN.

#[global] Instance NoiseType_enum : AudacityOptionEnum NoiseType := {
  value m := match m with
             | WHITE => "White" | PINK => "Pink" | BROWNIAN => "Brownian"
             end;
  members := [WHITE; PINK; BROWNIAN]
}.

Inductive ToneWaveform : Type :=
| SINE | SQUARE | SAWTOOTH | SQUARE_NO_ALIAS | TRIANGLE.

#[global] Instance ToneWaveform_enum : AudacityOptionEnum ToneWaveform := {
  value m := match m with
             | SINE => "Sine" | SQUARE => "Square" | SAWTOOTH => "Sawtooth"
             | SQUARE_NO_ALIAS => "Square, no alias" | TRIANGLE => "Triangle"
             end;
  members := [SINE; SQUARE; SAWTOOTH; SQUARE_NO_ALIAS; TRIANGLE]
}.

Inductive PluckFade : Type := ABRUPT | GRADUAL.

#[global] Instance PluckFade_enum : AudacityOptionEnum PluckFade := {
  value m := match m with ABRUPT => "Abrupt" | GRADUAL => "Gradual" end;
  members := [ABRUPT; GRADUAL]
}.

End Enums.
Import Enums.

(** An argument annotated [En | str]: a member of the enumeration, or any
    plain value. *)
Inductive arg (En : Type) : Type :=
| Plain (v : pyval)
| Member (m : En).
Arguments Plain {En} v.
Arguments Member {En} m.

(** [str(a)] *)
Definition arg_str {En : Type} `{AudacityOptionEnum En} (a : arg En) : string :=
  match a with
  | Plain v => PyVal.str v
  | Member m => str_member m
  end.

(** [a in l] for a list or tuple [l] of strings: a member of an enumeration
    equals no string, nor does a value that is not a [str]. *)
Definition arg_in {En : Type} (a : arg En) (l : list string) : bool :=
  match a with
  | Plain (PyStr s) => bool_decide (s ∈ l)
  | _ => false
  end.

(** [repr(l)] for a list of strings free of quotes and escapes. *)
Definition repr_list (l : list string) : string :=
  "[" +:+ String.concat ", " (map (fun s => "'" +:+ s +:+ "'") l) +:+ "]".


(** [if not ok: raise PyAudacityException(msg)] *)
Definition require (ok : bool) (msg : string) : IO unit :=
  if ok then ret tt else raise (PyAudacityException msg).



Section Macros.

Variable E : env.

(** [open(filename, add_to_history=False)] *)
Definition open (fuel : nat) (filename add_to_history : pyval) : IO string :=
  require (PyType.isinstance_str filename)
    ("filename argument must be a Path or str, not"
     +:+ PyVal.str_type add_to_history) ;;
  ex <- Os.path_exists (PyVal.str filename) ;;
  require ex (PyVal.str filename +:+ " file not found.") ;;
  require (PyVal.isinstance_bool add_to_history)
    ("add_to_history argument must be a bool, not"
     +:+ PyVal.str_type add_to_history) ;;
  do E fuel
     ("OpenProject2: Filename=" +:+ DQ +:+ PyVal.str filename +:+ DQ
      +:+ " AddToHistory=" +:+ DQ +:+ PyVal.str add_to_history +:+ DQ).

(** [export(filename, num_channels=1)], [filename] a [str]. *)
Definition export (fuel : nat) (filename : string) (num_channels : pyval)
  : IO string :=
  ex <- Os.path_exists filename ;;
  require ex (filename +:+ " file not found.") ;;
  require (PyType.isinstance_int num_channels)
    ("num_channels argument must be a int, not"
     +:+ PyVal.str_type num_channels) ;;
  do E fuel
     ("Export2: Filename=" +:+ DQ +:+ filename +:+ DQ
      +:+ " NumChannels=" +:+ DQ +:+ PyVal.str num_channels +:+ DQ).

(** [import_audio(filename)], [filename] a [str]. *)
Definition import_audio (fuel : nat) (filename : string) : IO string :=
  ex <- Os.path_exists filename ;;
  require ex (filename +:+ " file not found.") ;;
  do E fuel "ImportAudio".

Definition valid_noise_types : list string :=
  map value (members (A := NoiseType)).

(** [noise(noise_type=NoiseType.WHITE, amplitude=0.8)] *)
Definition noise (fuel : nat) (noise_type : arg NoiseType) (amplitude : pyval)
  : IO string :=
  require (arg_in noise_type valid_noise_types)
    ("noise_type argument must be one of " +:+ repr_list valid_noise_types
     +:+ ", got " +:+ DQ +:+ arg_str noise_type +:+ DQ) ;;
  require (PyType.isinstance_int amplitude)
    ("amplitude argument must be float or int, not "
     +:+ PyVal.str_type amplitude) ;;
  require ((0 <=? PyType.int_value amplitude)%Z
           && (PyType.int_value amplitude <=? 1)%Z)
    "amplitude argument must be between 0.0 and 1.0" ;;
  do E fuel
     ("Noise: Type=" +:+ DQ +:+ arg_str noise_type +:+ DQ
      +:+ " Amplitude=" +:+ DQ +:+ PyVal.str amplitude +:+ DQ).

(** [tone(frequency=440.0, amplitude=0.8, waveform=ToneWaveform.SINE)] *)
Definition tone (fuel : nat) (frequency amplitude : pyval)
    (waveform : arg ToneWaveform) : IO string :=
  let waveform := arg_str waveform in
  require (PyType.isinstance_int frequency)
    ("frequency argument must be float or int, not "
     +:+ PyVal.str_type frequency) ;;
  require (PyType.isinstance_int amplitude)
    ("amplitude argument must be float or int, not "
     +:+ PyVal.str_type amplitude) ;;
  require (bool_decide (PyAscii.str_lower waveform
                          ∈ ["sine"; "square"; "sawtooth"; "square, no alias"]))
    ("waveform argument must be one of " +:+ DQ +:+ "Sine" +:+ DQ +:+ ", "
     +:+ DQ +:+ "Square" +:+ DQ +:+ ", " +:+ DQ +:+ "Sawtooth" +:+ DQ
     +:+ ", or " +:+ DQ +:+ "Square, no alias" +:+ DQ) ;;
  let waveform := PyAscii.upper_first_lower_rest waveform in
  do E fuel
     ("Tone: Frequency=" +:+ DQ +:+ PyVal.str frequency +:+ DQ
      +:+ " Amplitude=" +:+ DQ +:+ PyVal.str amplitude +:+ DQ
      +:+ " Waveform=" +:+ DQ +:+ waveform +:+ DQ).






(** [set_preference(name, value, reload=False)] *)
Definition set_preference (fuel : nat) (name value reload : pyval)
  : IO string :=
  require (PyType.isinstance_str name)
    ("name must be str, not " +:+ PyVal.str_type name) ;;
  require (PyType.isinstance_str value)
    ("value must be str, not " +:+ PyVal.str_type value) ;;
  require (PyVal.isinstance_bool reload)
    ("reload must be bool, not " +:+ PyVal.str_type reload) ;;
  let reload_value := if PyVal.truthy reload then "1" else "0" in
  do E fuel
     ("SetPreference: Name=" +:+ DQ +:+ PyVal.str name +:+ DQ
      +:+ " Value=" +:+ DQ +:+ PyVal.str value +:+ DQ
      +:+ " Reload=" +:+ DQ +:+ reload_value +:+ DQ).

(** [get_info(type="Commands", format="JSON")], both arguments [str]. *)
Definition get_info (fuel : nat) (type format : string) : IO string :=
  require (bool_decide (PyAscii.title type
                          ∈ ["Commands"; "Menus"; "Preferences"; "Tracks";
                             "Clips"; "Envelopes"; "Labels"; "Boxes"]))
    ("type argument must be one of " +:+ DQ +:+ "Commands" +:+ DQ +:+ ", "
     +:+ DQ +:+ "Menus" +:+ DQ +:+ ", " +:+ DQ +:+ "Preferences" +:+ DQ
     +:+ ", " +:+ DQ +:+ "Tracks" +:+ DQ +:+ ", " +:+ DQ +:+ "Clips" +:+ DQ
     +:+ ", " +:+ DQ +:+ "Envelopes" +:+ DQ +:+ ", " +:+ DQ +:+ "Labels"
     +:+ DQ +:+ ", or " +:+ DQ +:+ "Boxes" +:+ DQ) ;;
  require (bool_decide (PyAscii.title format ∈ ["JSON"; "LISP"; "Brief"]))
    ("format argument must be one of " +:+ DQ +:+ "JSON" +:+ DQ +:+ ", "
     +:+ DQ +:+ "LISP" +:+ DQ +:+ ", or " +:+ DQ +:+ "Brief" +:+ DQ) ;;
  do E fuel
     ("GetInfo: Type=" +:+ DQ +:+ type +:+ DQ
      +:+ " Format=" +:+ DQ +:+ format +:+ DQ).

End Macros.

(** The state [save] is in once it is past its first statement. *)
Definition after_overwrite (filename : string) (allow_overwrite : pyval)
    (st : state) : state :=
  if PyVal.truthy allow_overwrite
  then if bool_decide (filename ∈ fs st)
       then State (fs st ∖ {[filename]}) (cursor st) (opened st)
                  (trace st ++ [EvExists filename; EvUnlink filename])
       else State (fs st) (cursor st) (opened st)
                  (trace st ++ [EvExists filename])
  else st.

(** * Properties *)

(** ** Sample runs *)

Example str_nat_1000 : str_nat 1000 = "1000".
Proof. reflexivity. Qed.

Example contains_marker_inside :
  contains failure_marker ("x" +:+ LF +:+ failure_marker +:+ LF) = true
  /\ contains failure_marker "BatchCommand finished: OK" = false.
Proof. split; reflexivity. Qed.

Example do_help_posix :
  do (posix_peer ["ok" +:+ LF; "BatchCommand finished: OK" +:+ LF; LF])
     3 "Help" (idle posix_pipes)
  = (Returned ("ok" +:+ LF +:+ "BatchCommand finished: OK" +:+ LF),
     State posix_pipes 3 []
       [ EvExists "/tmp/audacity_script_pipe.to.1000"; EvSleep;
         EvExists "/tmp/audacity_script_pipe.from.1000"; EvSleep;
         EvOpen "/tmp/audacity_script_pipe.to.1000" ModeW;
         EvOpen "/tmp/audacity_script_pipe.from.1000" ModeR;
         EvWrite "/tmp/audacity_script_pipe.to.1000" ("Help" +:+ LF);
         EvFlush "/tmp/audacity_script_pipe.to.1000";
         EvReadline "/tmp/audacity_script_pipe.from.1000" ("ok" +:+ LF);
         EvReadline "/tmp/audacity_script_pipe.from.1000"
           ("BatchCommand finished: OK" +:+ LF);
         EvReadline "/tmp/audacity_script_pipe.from.1000" LF;
         EvClose "/tmp/audacity_script_pipe.to.1000"; EvSleep;
         EvClose "/tmp/audacity_script_pipe.from.1000" ]).
Proof. vm_compute. reflexivity. Qed.

Example do_help_win32_writes :
  List.filter is_write
    (trace (snd (do (win32_peer ["ok" +:+ LF; LF]) 2 "Help"
                    (idle win32_pipes))))
  = [EvWrite "\\.\pipe\ToSrvPipe" ("Help" +:+ CR +:+ LF +:+ NUL)].
Proof. vm_compute. reflexivity. Qed.

Example do_two_lines_still_reading :
  fst (do (posix_peer ["ok" +:+ LF; LF]) 1 "Help" (idle posix_pipes))
  = Running.
Proof. reflexivity. Qed.

Example save_bad_argument_deletes :
  save (posix_peer []) 0 "/home/al/song.aup3" (PyStr "yes") (PyBool false)
       (PyBool true) (idle {[ "/home/al/song.aup3" ]})
  = (Raised (PyAudacityException
               "add_to_history argument must be a bool, not<class 'str'>"),
     State ∅ 0 []
       [EvExists "/home/al/song.aup3"; EvUnlink "/home/al/song.aup3"]).
Proof. vm_compute. reflexivity. Qed.

(** ** Strings *)

Lemma append_nil_l (t : string) : EmptyString +:+ t = t.
Proof. reflexivity. Qed.

Lemma append_cons (a : ascii) (s t : string) :
  String a s +:+ t = String a (s +:+ t).
Proof. reflexivity. Qed.

Lemma append_nil_r (s : string) : s +:+ EmptyString = s.
Proof.
  induction s as [|a s IH]; [reflexivity|].
  rewrite append_cons, IH; reflexivity.
Qed.

Lemma append_assoc (s t u : string) : (s +:+ t) +:+ u = s +:+ t +:+ u.
Proof.
  induction s as [|a s IH]; [reflexivity|].
  rewrite !append_cons, IH; reflexivity.
Qed.

Lemma nonempty_true (s : string) : nonempty s = true <-> s <> EmptyString.
Proof. destruct s; simpl; split; congruence. Qed.

Lemma nonempty_app_l (s t : string) :
  nonempty s = true -> nonempty (s +:+ t) = true.
Proof. destruct s; [discriminate|]; rewrite append_cons; reflexivity. Qed.

Lemma prefix_app (n b : string) : String.prefix n (n +:+ b) = true.
Proof.
  induction n as [|a n IH]; [destruct b; reflexivity|].
  rewrite append_cons; simpl.
  destruct (ascii_dec a a); [exact IH | congruence].
Qed.

Lemma prefix_split (n h : string) :
  String.prefix n h = true -> exists b, h = n +:+ b.
Proof.
  revert h; induction n as [|a n IH]; intros h H.
  - exists h; reflexivity.
  - destruct h as [|c h]; simpl in H; [discriminate|].
    destruct (ascii_dec a c) as [->|]; [|discriminate].
    destruct (IH _ H) as [b ->]. exists b; reflexivity.
Qed.

Lemma contains_cons (n : string) (c : ascii) (h : string) :
  contains n (String c h) = String.prefix n (String c h) || contains n h.
Proof. reflexivity. Qed.

Lemma contains_nil (n : string) :
  contains n EmptyString = String.prefix n EmptyString.
Proof. unfold contains; apply orb_false_r. Qed.

(** [contains] is Python's [in]: the needle occurs somewhere in the text. *)
Lemma contains_spec (n h : string) :
  contains n h = true <-> exists a b, h = a +:+ n +:+ b.
Proof.
  split.
  - induction h as [|c h IH]; intros H.
    + rewrite contains_nil in H.
      destruct (prefix_split _ _ H) as [b Hb].
      exists EmptyString, b; exact Hb.
    + rewrite contains_cons in H.
      apply orb_true_iff in H as [H|H].
      * destruct (prefix_split _ _ H) as [b Hb].
        exists EmptyString, b; exact Hb.
      * destruct (IH H) as (a & b & ->).
        exists (String c a), b; reflexivity.
  - intros (a & b & ->).
    induction a as [|c a IH].
    + rewrite append_nil_l.
      destruct (n +:+ b) as [|c r] eqn:Hnb.
      * rewrite contains_nil, <- Hnb; apply prefix_app.
      * rewrite contains_cons, <- Hnb, prefix_app; reflexivity.
    + rewrite append_cons, contains_cons, IH; apply orb_true_r.
Qed.

(** ** The read loop *)

Section ReadLoop.

Variable E : env.

Lemma buffered_0 (c : nat) : buffered E c 0 = EmptyString.
Proof. reflexivity. Qed.

Lemma buffered_S (c n : nat) :
  buffered E c (S n) = inbound E c +:+ buffered E (S c) n.
Proof. reflexivity. Qed.

Lemma reads_S (p : string) (c n : nat) :
  reads E p c (S n) = EvReadline p (inbound E c) :: reads E p (S c) n.
Proof. reflexivity. Qed.

Lemma stops_0 (acc : string) (c : nat) :
  stops E acc c 0 = String.eqb (inbound E c) LF && nonempty acc.
Proof.
  unfold stops. rewrite Nat.add_0_r, buffered_0, append_nil_r. reflexivity.
Qed.

Lemma stops_S (acc : string) (c i : nat) :
  stops E acc c (S i) = stops E (acc +:+ inbound E c) (S c) i.
Proof.
  unfold stops.
  rewrite buffered_S, append_assoc.
  replace (c + S i) with (S c + i) by lia. reflexivity.
Qed.

(** One iteration of the loop. *)
Lemma read_loop_S (fuel : nat) (f : file) (response line : string)
    (st : state) :
  read_loop E (S fuel) f response line st =
  let st1 := State (fs st) (S (cursor st)) (opened st)
               (trace st ++ [EvReadline (f_name f) (inbound E (cursor st))]) in
  if stops E (response +:+ line) (cursor st) 0
  then (Returned (response +:+ line), st1)
  else read_loop E fuel f (response +:+ line) (inbound E (cursor st)) st1.
Proof.
  rewrite stops_0. cbn [read_loop]. unfold bind, readline.
  destruct (String.eqb _ LF && _); reflexivity.
Qed.

(** As long as the test fails the loop is still running, and it has read
    one line per iteration. *)
Lemma read_loop_running (n : nat) :
  forall (f : file) (response line : string) (st : state),
    (forall i, i < n -> stops E (response +:+ line) (cursor st) i = false) ->
    read_loop E n f response line st =
    (Running,
     State (fs st) (cursor st + n) (opened st)
           (trace st ++ reads E (f_name f) (cursor st) n)).
Proof.
  induction n as [|n IH]; intros f response line st Hno.
  - destruct st as [fs0 c o t]; cbn.
    rewrite Nat.add_0_r, app_nil_r. reflexivity.
  - rewrite read_loop_S; cbn zeta.
    rewrite (Hno 0) by lia.
    rewrite IH; cbn [fs cursor opened trace].
    + rewrite reads_S, <- app_assoc. cbn [app].
      replace (S (cursor st) + n) with (cursor st + S n) by lia.
      reflexivity.
    + intros i Hi. rewrite <- stops_S. apply Hno; lia.
Qed.

(** At the first line where the test succeeds the loop ends, with the text
    buffered so far: the line that ended it is read but not kept. *)
Lemma read_loop_returns (n : nat) :
  forall (fuel : nat) (f : file) (response line : string) (st : state),
    n < fuel ->
    (forall i, i < n -> stops E (response +:+ line) (cursor st) i = false) ->
    stops E (response +:+ line) (cursor st) n = true ->
    read_loop E fuel f response line st =
    (Returned ((response +:+ line) +:+ buffered E (cursor st) n),
     State (fs st) (cursor st + S n) (opened st)
           (trace st ++ reads E (f_name f) (cursor st) (S n))).
Proof.
  induction n as [|n IH]; intros fuel f response line st Hfuel Hno Hyes;
    (destruct fuel as [|fuel]; [lia|]); rewrite read_loop_S; cbn zeta.
  - rewrite Hyes, buffered_0, append_nil_r.
    replace (cursor st + 1) with (S (cursor st)) by lia. reflexivity.
  - rewrite (Hno 0) by lia.
    rewrite (IH fuel); cbn [fs cursor opened trace].
    + rewrite buffered_S, append_assoc, (reads_S _ _ (S n)), <- app_assoc.
      cbn [app].
      replace (S (cursor st) + S n) with (cursor st + S (S n)) by lia.
      reflexivity.
    + lia.
    + intros i Hi. rewrite <- stops_S. apply Hno; lia.
    + rewrite <- stops_S. exact Hyes.
Qed.

(** Within any number of iterations the test either never succeeds or has
    a first success. *)
Lemma stop_search (acc : string) (c fuel : nat) :
  (forall i, i < fuel -> stops E acc c i = false)
  \/ (exists n, n < fuel /\ stops E acc c n = true
                /\ forall i, i < n -> stops E acc c i = false).
Proof.
  induction fuel as [|fuel [IH | (n & Hn & Hy & Hno)]].
  - left; intros i Hi; lia.
  - destruct (stops E acc c fuel) eqn:Hs.
    + right. exists fuel. split; [lia | split; [exact Hs | exact IH]].
    + left. intros i Hi.
      destruct (decide (i = fuel)) as [->|]; [exact Hs | apply IH; lia].
  - right. exists n. split; [lia | split; assumption].
Qed.

(** The first success, when there is one, is unique. *)
Lemma first_stop_unique (c n m : nat) :
  first_stop E c n -> first_stop E c m -> n = m.
Proof.
  intros [Hn Hnn] [Hm Hmm].
  destruct (Nat.lt_trichotomy n m) as [H | [H | H]]; [|exact H|].
  - rewrite (Hmm n H) in Hn; discriminate.
  - rewrite (Hnn m H) in Hm; discriminate.
Qed.

End ReadLoop.

(** ** The three ways through [do] *)

Section DoPaths.

Variable E : env.

Local Abbreviation w := (write_pipe_name E).
Local Abbreviation r := (read_pipe_name E).

Lemma remove_first_pipes (o : list file) :
  remove_first (File r ModeR)
    (remove_first (File w ModeW) (File r ModeR :: File w ModeW :: o)) = o.
Proof.
  cbn [remove_first].
  destruct (decide (File w ModeW = File r ModeR)) as [Heq|_];
    [discriminate Heq|].
  destruct (decide (File w ModeW = File w ModeW)) as [_|Hne];
    [|now destruct Hne].
  cbn [remove_first].
  destruct (decide (File r ModeR = File r ModeR)) as [_|Hne];
    [reflexivity | now destruct Hne].
Qed.

(** The outbound pipe is missing: [do] raises after the first check. *)
Lemma do_no_write_pipe (fuel : nat) (command : string) (st : state) :
  w ∉ fs st ->
  do E fuel command st =
  (Raised (PyAudacityException (w +:+ not_exist_msg)),
   State (fs st) (cursor st) (opened st) (trace st ++ [EvExists w])).
Proof.
  intros Hw. unfold do, bind, Os.path_exists.
  rewrite bool_decide_false by exact Hw. reflexivity.
Qed.

(** The inbound pipe is missing: [do] raises after the second check. *)
Lemma do_no_read_pipe (fuel : nat) (command : string) (st : state) :
  w ∈ fs st -> r ∉ fs st ->
  do E fuel command st =
  (Raised (PyAudacityException (r +:+ not_exist_msg)),
   State (fs st) (cursor st) (opened st)
         (trace st ++ [EvExists w; EvSleep; EvExists r])).
Proof.
  intros Hw Hr. unfold do, bind, Os.path_exists, Os.sleep, ret, log.
  rewrite bool_decide_true by exact Hw. cbn.
  rewrite bool_decide_false by exact Hr. cbn.
  rewrite <- !app_assoc. reflexivity.
Qed.

(** Both pipes exist: [do] opens them, writes, runs the loop, and when the
    loop ends closes both and only then looks for the failure marker. *)
Lemma do_opened (fuel : nat) (command : string) (st : state) :
  w ∈ fs st -> r ∈ fs st ->
  do E fuel command st =
  match read_loop E fuel (File r ModeR) EmptyString EmptyString
          (State (fs st) (cursor st)
                 (File r ModeR :: File w ModeW :: opened st)
                 (trace st ++ prelude E command)) with
  | (Returned response, st2) =>
      (verdict response,
       State (fs st2) (cursor st2)
             (remove_first (File r ModeR)
                (remove_first (File w ModeW) (opened st2)))
             (trace st2 ++ closing E))
  | (Raised e, st2) => (Raised e, st2)
  | (Running, st2) => (Running, st2)
  end.
Proof.
  intros Hw Hr.
  unfold do, bind, Os.path_exists, Os.sleep, Os.open, Os.write, Os.flush,
    ret, log.
  rewrite bool_decide_true by exact Hw. cbn.
  rewrite bool_decide_true by exact Hr. cbn.
  unfold prelude. rewrite <- !app_assoc. cbn [app].
  destruct (read_loop E fuel _ _ _ _) as [[response|e|] st2]; try reflexivity.
  unfold Os.close, raise, verdict, closing. cbn.
  rewrite <- !app_assoc. cbn [app].
  destruct (contains failure_marker response); reflexivity.
Qed.

(** The exchange completes: the peer's first stopping line is line [n] and
    the loop is given more than [n] iterations. *)
Lemma do_completes (fuel n : nat) (command : string) (st : state) :
  w ∈ fs st -> r ∈ fs st ->
  first_stop E (cursor st) n -> n < fuel ->
  do E fuel command st =
  (verdict (buffered E (cursor st) n),
   State (fs st) (cursor st + S n) (opened st)
         (trace st ++ prelude E command
            ++ reads E r (cursor st) (S n) ++ closing E)).
Proof.
  intros Hw Hr [Hyes Hno] Hfuel.
  rewrite do_opened by assumption.
  rewrite (read_loop_returns E n) by (cbn [cursor]; assumption).
  cbn [fs cursor opened trace f_name].
  rewrite remove_first_pipes, <- !app_assoc. reflexivity.
Qed.

(** The exchange is still reading: the test has failed on every line read
    so far, and both pipes are open. *)
Lemma do_reading (fuel : nat) (command : string) (st : state) :
  w ∈ fs st -> r ∈ fs st ->
  (forall i, i < fuel -> stops E EmptyString (cursor st) i = false) ->
  do E fuel command st =
  (Running,
   State (fs st) (cursor st + fuel)
         (File r ModeR :: File w ModeW :: opened st)
         (trace st ++ prelude E command ++ reads E r (cursor st) fuel)).
Proof.
  intros Hw Hr Hno.
  rewrite do_opened by assumption.
  rewrite (read_loop_running E fuel) by (cbn [cursor]; assumption).
  cbn [fs cursor opened trace f_name].
  rewrite <- !app_assoc. reflexivity.
Qed.

End DoPaths.

(** ** Every call of [do] is one of the four runs *)

Lemma do_run_ok (E : env) (fuel : nat) (command : string) (st : state) :
  do_run E command st fuel (do E fuel command st).
Proof.
  destruct (decide (write_pipe_name E ∈ fs st)) as [Hw|Hw];
    [|rewrite do_no_write_pipe by exact Hw; now constructor].
  destruct (decide (read_pipe_name E ∈ fs st)) as [Hr|Hr];
    [|rewrite do_no_read_pipe by assumption; now constructor].
  destruct (stop_search E EmptyString (cursor st) fuel)
    as [Hno | (n & Hn & Hyes & Hno)].
  - rewrite do_reading by assumption. now constructor.
  - rewrite (do_completes E fuel n) by (try split; assumption).
    now constructor.
Qed.

Lemma emitted_app (st : state) (f : gset string) (c : nat) (o : list file)
    (l : list event) :
  emitted st (State f c o (trace st ++ l)) = l.
Proof. unfold emitted; cbn [trace]. apply drop_app_length. Qed.

Lemma stops_true_iff (E : env) (c n : nat) :
  stops E EmptyString c n = true <->
  inbound E (c + n) = LF /\ buffered E c n <> EmptyString.
Proof.
  unfold stops. rewrite append_nil_l, andb_true_iff, nonempty_true.
  rewrite String.eqb_eq. reflexivity.
Qed.

Lemma stops_false_iff (E : env) (c n : nat) :
  stops E EmptyString c n = false <->
  ~ (inbound E (c + n) = LF /\ buffered E c n <> EmptyString).
Proof.
  rewrite <- stops_true_iff. destruct (stops E EmptyString c n); split;
    congruence.
Qed.

Lemma verdict_cases (response : string) :
  (contains failure_marker response = true
   /\ verdict response = Raised (PyAudacityException response))
  \/ (contains failure_marker response = false
      /\ verdict response = Returned response).
Proof.
  unfold verdict. destruct (contains failure_marker response); auto.
Qed.

Lemma verdict_not_running (response : string) : verdict response <> Running.
Proof. unfold verdict; destruct (contains _ _); discriminate. Qed.

(** The [readline] events and nothing else. *)
Lemma reads_only_readline (E : env) (p : string) (c n : nat) (P : event -> bool) :
  (forall l, P (EvReadline p l) = false) ->
  List.filter P (reads E p c n) = [].
Proof.
  intros HP. revert c; induction n as [|n IH]; intros c; [reflexivity|].
  rewrite reads_S. cbn [List.filter]. rewrite HP. apply IH.
Qed.

Lemma reads_length (E : env) (p : string) (c n : nat) :
  length (reads E p c n) = n.
Proof.
  revert c; induction n as [|n IH]; intros c; [reflexivity|].
  rewrite reads_S; cbn [length]. now rewrite IH.
Qed.

(** ** Two pipes that deliver the same lines *)

Lemma lines_from_eq (E E' : env) (n : nat) :
  forall c c',
    (forall k, k < n -> inbound E (c + k) = inbound E' (c' + k)) ->
    lines_from E c n = lines_from E' c' n.
Proof.
  induction n as [|n IH]; intros c c' H; [reflexivity|].
  cbn [lines_from]. f_equal.
  - specialize (H 0 ltac:(lia)). now rewrite !Nat.add_0_r in H.
  - apply IH. intros k Hk. specialize (H (S k) ltac:(lia)).
    now rewrite <- !Nat.add_succ_comm in H.
Qed.

Lemma stops_eq (E E' : env) (acc : string) (c c' n : nat) :
  (forall k, k <= n -> inbound E (c + k) = inbound E' (c' + k)) ->
  stops E acc c n = stops E' acc c' n.
Proof.
  intros H. unfold stops, buffered.
  rewrite (H n) by lia.
  rewrite (lines_from_eq E E' n c c') by (intros k Hk; apply H; lia).
  reflexivity.
Qed.

Lemma first_stop_eq (E E' : env) (c c' n : nat) :
  (forall k, k <= n -> inbound E (c + k) = inbound E' (c' + k)) ->
  first_stop E' c' n -> first_stop E c n.
Proof.
  intros H [Hyes Hno]. split.
  - now rewrite (stops_eq E E' _ c c').
  - intros i Hi. rewrite (stops_eq E E' _ c c'); [now apply Hno|].
    intros k Hk. apply H. lia.
Qed.

Lemma buffered_eq (E E' : env) (c c' n : nat) :
  (forall k, k < n -> inbound E (c + k) = inbound E' (c' + k)) ->
  buffered E c n = buffered E' c' n.
Proof. intros H. unfold buffered. now rewrite (lines_from_eq E E' n c c'). Qed.

(** The loop's test never succeeds on the very first line: nothing is
    buffered yet. *)
Lemma no_stop_at_0 (E : env) (c : nat) : stops E EmptyString c 0 = false.
Proof. rewrite stops_0. apply andb_false_r. Qed.

(** Membership of a concrete path in a concrete file system. *)
Ltac in_fs := apply (bool_decide_unpack _); vm_compute; exact I.
Ltac not_in_fs :=
  let H := fresh in
  intros H; apply (bool_decide_pack _) in H; vm_compute in H; exact H.

(** * The claims *)

(** ** C1: when the read loop ends *)

Lemma blank_line1_blank_first_stop :
  first_stop (posix_peer [LF; "line1" +:+ LF; LF]) 0 2.
Proof.
  split; [reflexivity|].
  intros [|[|i]] Hi; [reflexivity | reflexivity | lia].
Qed.

Lemma blank_blank_first_stop : first_stop (posix_peer [LF; LF]) 0 1.
Proof.
  split; [reflexivity|].
  intros [|i] Hi; [reflexivity | lia].
Qed.

(** C1, as the claim states it, fails. The peer sends a blank line, then
    [line1], then a blank line: [do] returns the leading blank line together
    with [line1], and with no number of loop iterations does it return
    [line1] alone. And a peer that sends two blank lines ends the read at
    the second: the first one did count as buffered output. *)
Lemma do_blank_line1_blank_keeps_leading_blank :
  fst (do (posix_peer [LF; "line1" +:+ LF; LF]) 3 "Help" (idle posix_pipes))
    = Returned (LF +:+ "line1" +:+ LF)
  /\ (forall fuel,
        fst (do (posix_peer [LF; "line1" +:+ LF; LF]) fuel "Help"
               (idle posix_pipes))
        <> Returned ("line1" +:+ LF))
  /\ fst (do (posix_peer [LF; LF]) 2 "Help" (idle posix_pipes)) = Returned LF.
Proof.
  split; [reflexivity|]. split; [|reflexivity].
  intros fuel.
  destruct (decide (2 < fuel)) as [Hfuel|Hfuel].
  - rewrite (do_completes _ fuel 2);
      [ | in_fs | in_fs | exact blank_line1_blank_first_stop | exact Hfuel ].
    vm_compute. discriminate.
  - destruct fuel as [|[|[|fuel]]]; [vm_compute; discriminate .. | lia].
Qed.

(** C1, amended. With both pipes in place, [do] leaves its read loop only at
    a line [\n] read while the buffer is not empty, and at the first such
    line; what it then returns (or raises with) is the buffer, the line that
    ended the loop left out. A blank first line never ends the read, but it
    is appended to the buffer like any other line and counts as content from
    then on: after a blank first line the buffer starts with that blank
    line, a second blank line ends the read with the response [\n], and the
    peer that sends blank, [line1], blank gets [\nline1\n] back. *)
Theorem do_read_ends_at_blank_after_content
    (E : env) (fuel : nat) (command : string) (st : state) :
  write_pipe_name E ∈ fs st ->
  read_pipe_name E ∈ fs st ->
  (fst (do E fuel command st) <> Running ->
   exists n,
     n < fuel
     /\ inbound E (cursor st + n) = LF
     /\ buffered E (cursor st) n <> EmptyString
     /\ (forall i, i < n ->
           ~ (inbound E (cursor st + i) = LF
              /\ buffered E (cursor st) i <> EmptyString))
     /\ fst (do E fuel command st) = verdict (buffered E (cursor st) n)
     /\ cursor (snd (do E fuel command st)) = cursor st + S n)
  /\ (inbound E (cursor st) = LF ->
      forall n, first_stop E (cursor st) n ->
        0 < n
        /\ buffered E (cursor st) n
           = LF +:+ buffered E (S (cursor st)) (n - 1))
  /\ (inbound E (cursor st) = LF ->
      inbound E (cursor st + 1) = LF ->
      1 < fuel ->
      fst (do E fuel command st) = Returned LF)
  /\ ((forall k, inbound E (cursor st + k)
                 = of_lines [LF; "line1" +:+ LF; LF] k) ->
      2 < fuel ->
      fst (do E fuel command st) = Returned (LF +:+ "line1" +:+ LF)).
Proof.
  intros Hw Hr. split; [|split; [|split]].
  - intros Hfin.
    destruct (do_run_ok E fuel command st) as [Hw'|_ Hr'|n _ _ Hstop Hn|_ _ Hno];
      [contradiction | contradiction | | now destruct Hfin].
    exists n. destruct Hstop as [Hyes Hbefore].
    apply stops_true_iff in Hyes as [Hline Hbuf].
    repeat split; try assumption.
    intros i Hi. apply stops_false_iff, Hbefore, Hi.
  - intros H0 n [Hyes _].
    destruct n as [|n]; [rewrite no_stop_at_0 in Hyes; discriminate|].
    split; [lia|].
    rewrite buffered_S, H0. cbn [Nat.sub]. now rewrite Nat.sub_0_r.
  - intros H0 H1 Hfuel.
    rewrite (do_completes E fuel 1); try assumption.
    + erewrite (buffered_eq E (posix_peer [LF; LF]) _ 0).
      * reflexivity.
      * intros [|k] Hk; [rewrite Nat.add_0_r; exact H0 | lia].
    + apply (first_stop_eq E (posix_peer [LF; LF]) _ 0);
        [|exact blank_blank_first_stop].
      intros [|[|k]] Hk; [rewrite Nat.add_0_r; exact H0 | exact H1 | lia].
  - intros Hlines Hfuel.
    rewrite (do_completes E fuel 2); try assumption.
    + erewrite (buffered_eq E (posix_peer [LF; "line1" +:+ LF; LF]) _ 0).
      * reflexivity.
      * intros k _. apply Hlines.
    + apply (first_stop_eq E (posix_peer [LF; "line1" +:+ LF; LF]) _ 0);
        [|exact blank_line1_blank_first_stop].
      intros k _. apply Hlines.
Qed.

Lemma do_read_ends_at_blank_after_content_witness :
  write_pipe_name (posix_peer [LF; "line1" +:+ LF; LF]) ∈ fs (idle posix_pipes)
  /\ read_pipe_name (posix_peer [LF; "line1" +:+ LF; LF])
       ∈ fs (idle posix_pipes)
  /\ fst (do (posix_peer [LF; "line1" +:+ LF; LF]) 3 "Help" (idle posix_pipes))
     = Returned (LF +:+ "line1" +:+ LF).
Proof.
  assert (Hw : write_pipe_name (posix_peer [LF; "line1" +:+ LF; LF])
                 ∈ fs (idle posix_pipes)) by in_fs.
  assert (Hr : read_pipe_name (posix_peer [LF; "line1" +:+ LF; LF])
                 ∈ fs (idle posix_pipes)) by in_fs.
  split; [exact Hw | split; [exact Hr|]].
  destruct (do_read_ends_at_blank_after_content
              (posix_peer [LF; "line1" +:+ LF; LF]) 3 "Help"
              (idle posix_pipes) Hw Hr) as (_ & _ & _ & Hinst).
  apply Hinst; [intros k; reflexivity | lia].
Defined.

(** ** C2: a peer that echoes the command *)

Lemma nonempty_app_r (s t : string) :
  nonempty t = true -> nonempty (s +:+ t) = true.
Proof.
  destruct s; [now rewrite append_nil_l | now rewrite append_cons].
Qed.

(** A peer whose next two lines are [line] (ending in a line feed) and a
    blank line: the loop stops at the second. *)
Lemma echo_first_stop (E : env) (c : nat) (body : string) :
  inbound E c = body +:+ LF ->
  inbound E (c + 1) = LF ->
  first_stop E c 1 /\ buffered E c 1 = body +:+ LF.
Proof.
  intros H0 H1.
  assert (Hbuf : buffered E c 1 = body +:+ LF).
  { rewrite buffered_S, buffered_0, append_nil_r. exact H0. }
  split; [split|exact Hbuf].
  - apply stops_true_iff. split; [exact H1|].
    rewrite Hbuf. apply nonempty_true, nonempty_app_r. reflexivity.
  - intros [|i] Hi; [apply no_stop_at_0 | lia].
Qed.

(** C2, as the claim states it, fails for a command that contains the
    failure marker: the peer echoes it, a blank line follows, and [do]
    raises instead of returning the echoed line. *)
Lemma do_echo_of_marker_raises :
  fst (do (posix_peer ["BatchCommand finished: Failed!" +:+ LF; LF]) 2
          "BatchCommand finished: Failed!" (idle posix_pipes))
    = Raised (PyAudacityException ("BatchCommand finished: Failed!" +:+ LF))
  /\ forall fuel,
       fst (do (posix_peer ["BatchCommand finished: Failed!" +:+ LF; LF]) fuel
               "BatchCommand finished: Failed!" (idle posix_pipes))
       <> Returned ("BatchCommand finished: Failed!" +:+ LF).
Proof.
  split; [reflexivity|].
  intros fuel.
  destruct (decide (1 < fuel)) as [Hfuel|Hfuel].
  - rewrite (do_completes _ fuel 1); [ | in_fs | in_fs | | exact Hfuel ].
    + vm_compute. discriminate.
    + apply (echo_first_stop _ 0 "BatchCommand finished: Failed!");
        reflexivity.
  - destruct fuel as [|[|fuel]]; [vm_compute; discriminate .. | lia].
Qed.

(** C2, amended. For every command [c] whose echoed line does not contain
    the failure marker: when the peer's answer is the line [c] with its line
    feed followed by a blank line, [do] returns exactly that echoed line,
    and the blank line that ended the answer is read but is no part of the
    returned text. (When the echoed line contains the marker, [do] raises
    with the echoed line as payload.) *)
Theorem do_echo_returns_echoed_line
    (E : env) (fuel : nat) (c : string) (st : state) :
  write_pipe_name E ∈ fs st ->
  read_pipe_name E ∈ fs st ->
  inbound E (cursor st) = c +:+ LF ->
  inbound E (cursor st + 1) = LF ->
  1 < fuel ->
  (contains failure_marker (c +:+ LF) = false ->
   fst (do E fuel c st) = Returned (c +:+ LF))
  /\ (contains failure_marker (c +:+ LF) = true ->
      fst (do E fuel c st) = Raised (PyAudacityException (c +:+ LF)))
  /\ List.filter is_readline (emitted st (snd (do E fuel c st)))
     = [EvReadline (read_pipe_name E) (c +:+ LF);
        EvReadline (read_pipe_name E) LF].
Proof.
  intros Hw Hr H0 H1 Hfuel.
  destruct (echo_first_stop E (cursor st) c H0 H1) as [Hstop Hbuf].
  rewrite (do_completes E fuel 1) by assumption.
  cbn [fst snd]. rewrite Hbuf, emitted_app.
  split; [|split].
  - intros Hm. unfold verdict. now rewrite Hm.
  - intros Hm. unfold verdict. now rewrite Hm.
  - rewrite !reads_S. cbn. rewrite Nat.add_1_r in H1. now rewrite H0, H1.
Qed.

Lemma do_echo_returns_echoed_line_witness :
  write_pipe_name (posix_peer ["Help" +:+ LF; LF]) ∈ fs (idle posix_pipes)
  /\ read_pipe_name (posix_peer ["Help" +:+ LF; LF]) ∈ fs (idle posix_pipes)
  /\ inbound (posix_peer ["Help" +:+ LF; LF]) 0 = "Help" +:+ LF
  /\ inbound (posix_peer ["Help" +:+ LF; LF]) 1 = LF
  /\ 1 < 2
  /\ contains failure_marker ("Help" +:+ LF) = false
  /\ fst (do (posix_peer ["Help" +:+ LF; LF]) 2 "Help" (idle posix_pipes))
     = Returned ("Help" +:+ LF).
Proof.
  assert (Hw : write_pipe_name (posix_peer ["Help" +:+ LF; LF])
                 ∈ fs (idle posix_pipes)) by in_fs.
  assert (Hr : read_pipe_name (posix_peer ["Help" +:+ LF; LF])
                 ∈ fs (idle posix_pipes)) by in_fs.
  repeat (split; [first [exact Hw | exact Hr | reflexivity | lia]|]).
  apply (do_echo_returns_echoed_line
           (posix_peer ["Help" +:+ LF; LF]) 2 "Help" (idle posix_pipes)
           Hw Hr eq_refl eq_refl ltac:(lia)).
  reflexivity.
Defined.

(** ** C3: the failure marker *)

(** C3. When the exchange has run to its end with the response [response]
    accumulated, [do] raises exactly when the response contains the text
    [BatchCommand finished: Failed!]; what it raises is then a
    [PyAudacityException] whose argument is the whole response, unchanged;
    and when the marker is absent [do] returns the response unchanged. *)
Theorem do_raises_iff_failure_marker
    (E : env) (fuel n : nat) (command : string) (st : state) :
  write_pipe_name E ∈ fs st ->
  read_pipe_name E ∈ fs st ->
  first_stop E (cursor st) n ->
  n < fuel ->
  let response := buffered E (cursor st) n in
  ((exists e, fst (do E fuel command st) = Raised e)
   <-> exists a b,
         response = a +:+ "BatchCommand finished: Failed!" +:+ b)
  /\ (forall e, fst (do E fuel command st) = Raised e ->
        e = PyAudacityException response)
  /\ (~ (exists a b,
           response = a +:+ "BatchCommand finished: Failed!" +:+ b) ->
      fst (do E fuel command st) = Returned response).
Proof.
  intros Hw Hr Hstop Hfuel response.
  rewrite (do_completes E fuel n) by assumption.
  cbn [fst]. fold response.
  change "BatchCommand finished: Failed!" with failure_marker.
  rewrite <- contains_spec.
  destruct (verdict_cases response) as [[Hm ->] | [Hm ->]]; rewrite Hm.
  - split; [|split].
    + split; [reflexivity | intros _; eexists; reflexivity].
    + intros e He. now inversion He.
    + intros Hn. now destruct Hn.
  - split; [|split].
    + split; [intros [e He]; discriminate He | discriminate].
    + intros e He. discriminate He.
    + reflexivity.
Qed.

Lemma do_raises_iff_failure_marker_witness :
  fst (do (posix_peer ["Unknown command" +:+ LF;
                        "BatchCommand finished: Failed!" +:+ LF; LF])
          3 "Nope" (idle posix_pipes))
  = Raised (PyAudacityException
              ("Unknown command" +:+ LF
               +:+ "BatchCommand finished: Failed!" +:+ LF)).
Proof.
  set (E := posix_peer ["Unknown command" +:+ LF;
                        "BatchCommand finished: Failed!" +:+ LF; LF]).
  assert (Hw : write_pipe_name E ∈ fs (idle posix_pipes)) by in_fs.
  assert (Hr : read_pipe_name E ∈ fs (idle posix_pipes)) by in_fs.
  assert (Hstop : first_stop E (cursor (idle posix_pipes)) 2).
  { split; [reflexivity|].
    intros [|[|i]] Hi; [reflexivity | reflexivity | lia]. }
  destruct (do_raises_iff_failure_marker E 3 2 "Nope" (idle posix_pipes)
              Hw Hr Hstop ltac:(lia)) as ([_ Hraise] & Hpayload & _).
  destruct Hraise as [e He].
  - exists ("Unknown command" +:+ LF), LF. reflexivity.
  - rewrite He. f_equal. exact (Hpayload e He).
Defined.

(** ** C4: a missing pipe *)

(** C4. When the outbound pipe does not exist, [do] raises a
    [PyAudacityException] having done nothing but the one existence check;
    when the outbound pipe exists and the inbound one does not, it raises
    the same class of exception having done nothing but the two checks and
    the pause between them. In both cases no pipe was opened, written to or
    read, and the open-file table and the inbound pipe are as before. *)
Theorem do_missing_pipe_raises_before_io
    (E : env) (fuel : nat) (command : string) (st : state) :
  (write_pipe_name E ∉ fs st ->
   do E fuel command st =
   (Raised (PyAudacityException (write_pipe_name E +:+ not_exist_msg)),
    State (fs st) (cursor st) (opened st)
          (trace st ++ [EvExists (write_pipe_name E)])))
  /\ (write_pipe_name E ∈ fs st -> read_pipe_name E ∉ fs st ->
      do E fuel command st =
      (Raised (PyAudacityException (read_pipe_name E +:+ not_exist_msg)),
       State (fs st) (cursor st) (opened st)
             (trace st ++ [EvExists (write_pipe_name E); EvSleep;
                           EvExists (read_pipe_name E)])))
  /\ (write_pipe_name E ∉ fs st \/ read_pipe_name E ∉ fs st ->
      List.filter is_pipe_io (emitted st (snd (do E fuel command st))) = []
      /\ opened (snd (do E fuel command st)) = opened st
      /\ cursor (snd (do E fuel command st)) = cursor st
      /\ exists msg,
           fst (do E fuel command st) = Raised (PyAudacityException msg)).
Proof.
  split; [|split].
  - apply do_no_write_pipe.
  - apply do_no_read_pipe.
  - intros Hmissing.
    destruct (decide (write_pipe_name E ∈ fs st)) as [Hw|Hw].
    + destruct Hmissing as [Hw'|Hr]; [contradiction|].
      rewrite do_no_read_pipe by assumption. cbn [fst snd opened cursor].
      rewrite emitted_app. repeat split. eexists; reflexivity.
    + rewrite do_no_write_pipe by assumption. cbn [fst snd opened cursor].
      rewrite emitted_app. repeat split. eexists; reflexivity.
Qed.

Lemma do_missing_pipe_raises_before_io_witness :
  ((write_pipe_name (posix_peer []) ∉ fs (idle ∅))
   /\ emitted (idle ∅) (snd (do (posix_peer []) 5 "Help" (idle ∅)))
      = [EvExists "/tmp/audacity_script_pipe.to.1000"])
  /\ (write_pipe_name (posix_peer [])
        ∈ fs (idle {[ "/tmp/audacity_script_pipe.to.1000" ]})
      /\ (read_pipe_name (posix_peer [])
            ∉ fs (idle {[ "/tmp/audacity_script_pipe.to.1000" ]}))
      /\ emitted (idle {[ "/tmp/audacity_script_pipe.to.1000" ]})
           (snd (do (posix_peer []) 5 "Help"
                    (idle {[ "/tmp/audacity_script_pipe.to.1000" ]})))
         = [EvExists "/tmp/audacity_script_pipe.to.1000"; EvSleep;
            EvExists "/tmp/audacity_script_pipe.from.1000"]).
Proof.
  assert (H0 : write_pipe_name (posix_peer []) ∉ fs (idle ∅)) by not_in_fs.
  assert (H1 : write_pipe_name (posix_peer [])
                 ∈ fs (idle {[ "/tmp/audacity_script_pipe.to.1000" ]}))
    by in_fs.
  assert (H2 : read_pipe_name (posix_peer [])
                 ∉ fs (idle {[ "/tmp/audacity_script_pipe.to.1000" ]}))
    by not_in_fs.
  split; [split; [exact H0|] | split; [exact H1 | split; [exact H2|]]].
  - destruct (do_missing_pipe_raises_before_io (posix_peer []) 5 "Help"
                (idle ∅)) as (Hfirst & _ & _).
    rewrite (Hfirst H0). reflexivity.
  - destruct (do_missing_pipe_raises_before_io (posix_peer []) 5 "Help"
                (idle {[ "/tmp/audacity_script_pipe.to.1000" ]}))
      as (_ & Hsecond & _).
    rewrite (Hsecond H1 H2). reflexivity.
Defined.

(** ** C5: framing by platform *)

(** With both pipes in place the events of a call are the prelude, some
    [readline] calls, and then either nothing (still reading) or the
    closing sequence. *)
Lemma do_emitted_shape (E : env) (fuel : nat) (command : string) (st : state) :
  write_pipe_name E ∈ fs st ->
  read_pipe_name E ∈ fs st ->
  exists k tl,
    emitted st (snd (do E fuel command st))
    = prelude E command ++ reads E (read_pipe_name E) (cursor st) k ++ tl
    /\ (tl = [] \/ tl = closing E).
Proof.
  intros Hw Hr.
  destruct (do_run_ok E fuel command st) as [Hw'|_ Hr'|n _ _ Hstop Hn|_ _ Hno];
    [contradiction | contradiction | | ]; cbn [snd]; rewrite emitted_app.
  - exists (S n), (closing E). auto.
  - exists fuel, []. rewrite app_nil_r. auto.
Qed.

Lemma filter_exchange (E : env) (command : string) (c k : nat)
    (tl : list event) (P : event -> bool) :
  (forall p l, P (EvReadline p l) = false) ->
  List.filter P (prelude E command ++ reads E (read_pipe_name E) c k ++ tl)
  = List.filter P (prelude E command) ++ List.filter P tl.
Proof.
  intros HP. rewrite !List.filter_app.
  rewrite (reads_only_readline E _ c k P) by (intros l; apply HP).
  reflexivity.
Qed.

(** C5. On [win32] the pipes are the two fixed names and the terminator is
    carriage return, line feed, NUL; on every other platform the pipes are
    the fixed [/tmp] prefixes followed by the decimal user id and the
    terminator is one line feed. With both pipes in place the only thing
    [do] writes is the command followed by that terminator, and it writes it
    to the outbound pipe. *)
Theorem do_platform_framing (E : env) :
  (sys_platform E = "win32" ->
   write_pipe_name E = "\\.\pipe\ToSrvPipe"
   /\ read_pipe_name E = "\\.\pipe\FromSrvPipe"
   /\ eol E = CR +:+ LF +:+ NUL)
  /\ (sys_platform E <> "win32" ->
      write_pipe_name E
      = "/tmp/audacity_script_pipe.to." +:+ str_nat (os_getuid E)
      /\ read_pipe_name E
         = "/tmp/audacity_script_pipe.from." +:+ str_nat (os_getuid E)
      /\ eol E = LF)
  /\ (forall fuel command st,
        write_pipe_name E ∈ fs st ->
        read_pipe_name E ∈ fs st ->
        List.filter is_write (emitted st (snd (do E fuel command st)))
        = [EvWrite (write_pipe_name E) (command +:+ eol E)]
        /\ List.filter is_open (emitted st (snd (do E fuel command st)))
           = [EvOpen (write_pipe_name E) ModeW;
              EvOpen (read_pipe_name E) ModeR]).
Proof.
  split; [|split].
  - intros Hp. unfold write_pipe_name, read_pipe_name, eol, is_win32.
    rewrite Hp. cbn. auto.
  - intros Hp. apply String.eqb_neq in Hp.
    unfold write_pipe_name, read_pipe_name, eol, is_win32.
    rewrite Hp. auto.
  - intros fuel command st Hw Hr.
    destruct (do_emitted_shape E fuel command st Hw Hr)
      as (k & tl & -> & Htl).
    rewrite !filter_exchange by reflexivity.
    destruct Htl as [-> | ->]; split; reflexivity.
Qed.

Lemma do_platform_framing_witness :
  write_pipe_name (posix_peer []) = "/tmp/audacity_script_pipe.to.1000"
  /\ read_pipe_name (posix_peer []) = "/tmp/audacity_script_pipe.from.1000"
  /\ eol (posix_peer []) = LF
  /\ eol (Env "win32" 0 (of_lines [])) = CR +:+ LF +:+ NUL
  /\ List.filter is_write
       (emitted (idle posix_pipes)
          (snd (do (posix_peer ["ok" +:+ LF; LF]) 2 "Help"
                   (idle posix_pipes))))
     = [EvWrite "/tmp/audacity_script_pipe.to.1000" ("Help" +:+ LF)].
Proof.
  destruct (do_platform_framing (posix_peer [])) as (_ & Hposix & _).
  destruct (Hposix ltac:(discriminate)) as (Hw & Hr & Heol).
  destruct (do_platform_framing (Env "win32" 0 (of_lines [])))
    as (Hwin & _ & _).
  destruct (Hwin eq_refl) as (_ & _ & Hweol).
  destruct (do_platform_framing (posix_peer ["ok" +:+ LF; LF]))
    as (_ & _ & Hio).
  destruct (Hio 2 "Help" (idle posix_pipes) ltac:(in_fs) ltac:(in_fs))
    as [Hwrite _].
  split; [exact Hw | split; [exact Hr | split; [exact Heol|]]].
  split; [exact Hweol | exact Hwrite].
Defined.

(** ** C6: one exchange, both pipes opened and closed *)

(** C6. Whenever a call of [do] gets as far as closing a pipe — whether it
    then returns or raises the peer's failure — what it did is, in order:
    the two existence checks, opening the outbound and then the inbound
    pipe, one write and its flush, the [readline] calls up to and including
    the line that ended the response, and closing the outbound and then the
    inbound pipe. So there is exactly one write, both pipes are opened
    during the call and closed by its end, the open-file table is as it was
    before the call, and the outcome is decided from the response after the
    last close, which is the last thing the call does to the system. *)
Theorem do_exchange_opens_writes_reads_closes
    (E : env) (fuel : nat) (command : string) (st : state) :
  existsb is_close (emitted st (snd (do E fuel command st))) = true ->
  exists n,
    first_stop E (cursor st) n
    /\ emitted st (snd (do E fuel command st))
       = prelude E command
           ++ reads E (read_pipe_name E) (cursor st) (S n) ++ closing E
    /\ opened (snd (do E fuel command st)) = opened st
    /\ fst (do E fuel command st) = verdict (buffered E (cursor st) n)
    /\ (fst (do E fuel command st) = Returned (buffered E (cursor st) n)
        \/ fst (do E fuel command st)
           = Raised (PyAudacityException (buffered E (cursor st) n)))
    /\ List.filter is_write (emitted st (snd (do E fuel command st)))
       = [EvWrite (write_pipe_name E) (command +:+ eol E)]
    /\ List.filter is_open (emitted st (snd (do E fuel command st)))
       = [EvOpen (write_pipe_name E) ModeW; EvOpen (read_pipe_name E) ModeR]
    /\ List.filter is_close (emitted st (snd (do E fuel command st)))
       = [EvClose (write_pipe_name E); EvClose (read_pipe_name E)]
    /\ length (List.filter is_readline
                 (emitted st (snd (do E fuel command st)))) = S n.
Proof.
  destruct (do_run_ok E fuel command st) as [Hw|Hw Hr|n Hw Hr Hstop Hn|Hw Hr Hno];
    cbn [fst snd opened]; rewrite emitted_app.
  - discriminate.
  - discriminate.
  - intros _. exists n.
    rewrite !filter_exchange by reflexivity.
    repeat split; try reflexivity; try exact (proj1 Hstop);
      try exact (proj2 Hstop).
    + destruct (verdict_cases (buffered E (cursor st) n)) as [[_ ->]|[_ ->]];
        auto.
    + rewrite !List.filter_app.
      assert (Hall : List.filter is_readline
                       (reads E (read_pipe_name E) (cursor st) (S n))
                     = reads E (read_pipe_name E) (cursor st) (S n)).
      { apply List.forallb_filter_id. unfold reads.
        rewrite forallb_forall. intros ev Hev.
        apply in_map_iff in Hev as (l & <- & _). reflexivity. }
      rewrite Hall. cbn [prelude closing List.filter is_readline app].
      rewrite app_nil_r. apply reads_length.
  - intros Hclose. exfalso.
    rewrite existsb_app in Hclose.
    apply orb_true_iff in Hclose as [Hclose|Hclose]; [discriminate Hclose|].
    apply existsb_exists in Hclose as (ev & Hev & Hc).
    unfold reads in Hev. apply in_map_iff in Hev as (l & <- & _).
    discriminate Hc.
Qed.

Lemma do_exchange_opens_writes_reads_closes_witness :
  existsb is_close
    (emitted (idle posix_pipes)
       (snd (do (posix_peer ["BatchCommand finished: Failed!" +:+ LF; LF]) 2
                "Nope" (idle posix_pipes)))) = true
  /\ opened (snd (do (posix_peer ["BatchCommand finished: Failed!" +:+ LF; LF])
                     2 "Nope" (idle posix_pipes))) = []
  /\ List.filter is_close
       (emitted (idle posix_pipes)
          (snd (do (posix_peer ["BatchCommand finished: Failed!" +:+ LF; LF])
                   2 "Nope" (idle posix_pipes))))
     = [EvClose "/tmp/audacity_script_pipe.to.1000";
        EvClose "/tmp/audacity_script_pipe.from.1000"].
Proof.
  assert (Hc : existsb is_close
                 (emitted (idle posix_pipes)
                    (snd (do (posix_peer
                                ["BatchCommand finished: Failed!" +:+ LF; LF])
                             2 "Nope" (idle posix_pipes)))) = true)
    by (vm_compute; reflexivity).
  split; [exact Hc|].
  destruct (do_exchange_opens_writes_reads_closes
              (posix_peer ["BatchCommand finished: Failed!" +:+ LF; LF]) 2
              "Nope" (idle posix_pipes) Hc)
    as (n & _ & _ & Hopened & _ & _ & _ & _ & Hclosed & _).
  split; [exact Hopened | exact Hclosed].
Defined.

(** ** C7: no timeout *)

(** C7. With both pipes in place: if the inbound pipe never delivers a blank
    line at a moment when something is buffered, then however many
    iterations the loop is given, [do] is still reading, and this includes
    a pipe that has reached end of input, whose every further [readline] is
    the empty string; if the pipe does deliver such a line, then from some
    number of iterations on [do] has left the loop. *)
Theorem do_read_has_no_timeout (E : env) (command : string) (st : state) :
  write_pipe_name E ∈ fs st ->
  read_pipe_name E ∈ fs st ->
  ((forall n, ~ (inbound E (cursor st + n) = LF
                 /\ buffered E (cursor st) n <> EmptyString)) ->
   forall fuel, fst (do E fuel command st) = Running)
  /\ (forall m,
        (forall k, m <= k -> inbound E (cursor st + k) = EmptyString) ->
        (forall n, n < m ->
           ~ (inbound E (cursor st + n) = LF
              /\ buffered E (cursor st) n <> EmptyString)) ->
        forall fuel, fst (do E fuel command st) = Running)
  /\ ((exists n, inbound E (cursor st + n) = LF
                 /\ buffered E (cursor st) n <> EmptyString) ->
      exists fuel0, forall fuel, fuel0 <= fuel ->
        fst (do E fuel command st) <> Running).
Proof.
  intros Hw Hr.
  assert (Hnever :
    (forall n, ~ (inbound E (cursor st + n) = LF
                  /\ buffered E (cursor st) n <> EmptyString)) ->
    forall fuel, fst (do E fuel command st) = Running).
  { intros Hno fuel.
    rewrite do_reading; [reflexivity | assumption | assumption |].
    intros i _. apply stops_false_iff, Hno. }
  split; [exact Hnever | split].
  - intros m Heof Hbefore. apply Hnever. intros n.
    destruct (decide (n < m)) as [Hlt|Hge]; [now apply Hbefore|].
    intros [Hline _]. rewrite Heof in Hline by lia. discriminate Hline.
  - intros [n Hn]. apply stops_true_iff in Hn.
    destruct (stop_search E EmptyString (cursor st) (S n))
      as [Hno | (k & Hk & Hyes & Hno)].
    + rewrite Hno in Hn by lia. discriminate Hn.
    + exists (S k). intros fuel Hfuel.
      rewrite (do_completes E fuel k);
        [apply verdict_not_running | assumption | assumption | | lia].
      split; assumption.
Qed.

Lemma do_read_has_no_timeout_witness :
  fst (do (posix_peer ["no line feed"]) 1000 "Help" (idle posix_pipes))
  = Running
  /\ exists fuel0, forall fuel, fuel0 <= fuel ->
       fst (do (posix_peer ["ok" +:+ LF; LF]) fuel "Help" (idle posix_pipes))
       <> Running.
Proof.
  split.
  - destruct (do_read_has_no_timeout (posix_peer ["no line feed"]) "Help"
                (idle posix_pipes) ltac:(in_fs) ltac:(in_fs))
      as (_ & Heof & _).
    apply (Heof 1).
    + intros [|[|k]] Hk; [lia | reflexivity | reflexivity].
    + intros [|n] Hn; [|lia]. intros [Hline _]. discriminate Hline.
  - destruct (do_read_has_no_timeout (posix_peer ["ok" +:+ LF; LF]) "Help"
                (idle posix_pipes) ltac:(in_fs) ltac:(in_fs))
      as (_ & _ & Hends).
    apply Hends. exists 1. split; [reflexivity | discriminate].
Defined.

(** ** C8: two calls in succession *)

(** [do] never changes which paths exist. *)
Lemma do_fs (E : env) (fuel : nat) (command : string) (st : state) :
  fs (snd (do E fuel command st)) = fs st.
Proof. destruct (do_run_ok E fuel command st); reflexivity. Qed.

(** A call that has ended, either way, leaves the open-file table as it
    found it. *)
Lemma do_finished_opened (E : env) (fuel : nat) (command : string)
    (st : state) :
  fst (do E fuel command st) <> Running ->
  opened (snd (do E fuel command st)) = opened st.
Proof.
  destruct (do_run_ok E fuel command st); cbn [fst snd opened];
    [reflexivity .. | intros Hfin; now destruct Hfin].
Qed.

Lemma reads_advance (E : env) (p : string) (k n : nat) :
  reads (advance E k) p 0 n = reads E p k n.
Proof.
  unfold reads. f_equal. apply lines_from_eq. intros i _. reflexivity.
Qed.

(** What a call does depends on the state it starts in only through the
    paths that exist and the lines the inbound pipe has yet to deliver: it is
    the call made on a system with no history, no open files and the pipe
    at its current position, with the earlier trace and open files carried
    along unchanged. *)
Lemma do_frame (E : env) (fuel : nat) (command : string) (st : state) :
  let fresh := State (fs st) 0 [] [] in
  let E' := advance E (cursor st) in
  fst (do E fuel command st) = fst (do E' fuel command fresh)
  /\ trace (snd (do E fuel command st))
     = trace st ++ trace (snd (do E' fuel command fresh))
  /\ opened (snd (do E fuel command st))
     = opened (snd (do E' fuel command fresh)) ++ opened st
  /\ cursor (snd (do E fuel command st))
     = cursor st + cursor (snd (do E' fuel command fresh)).
Proof.
  cbv zeta.
  set (E' := advance E (cursor st)).
  assert (Hagree : forall n k, k <= n ->
            inbound E' (0 + k) = inbound E (cursor st + k))
    by (intros n k _; reflexivity).
  assert (Hreads : forall p n, reads E' p 0 n = reads E p (cursor st) n)
    by (intros p n; apply reads_advance).
  destruct (do_run_ok E fuel command st) as [Hw|Hw Hr|n Hw Hr Hstop Hn|Hw Hr Hno].
  - rewrite (do_no_write_pipe E') by exact Hw.
    cbn. rewrite Nat.add_0_r. repeat split.
  - rewrite (do_no_read_pipe E') by assumption.
    cbn. rewrite Nat.add_0_r. repeat split.
  - rewrite (do_completes E' fuel n); try assumption.
    + cbn [fst snd trace opened cursor app].
      rewrite (buffered_eq E' E 0 (cursor st) n)
        by (intros k _; reflexivity).
      rewrite Hreads. repeat split.
    + apply (first_stop_eq E' E 0 (cursor st) n); [apply Hagree | exact Hstop].
  - rewrite (do_reading E' fuel); try assumption.
    + cbn [fst snd trace opened cursor app].
      rewrite Hreads. repeat split.
    + intros i Hi. cbn [cursor].
      rewrite (stops_eq E' E _ 0 (cursor st) i) by apply Hagree.
      apply Hno, Hi.
Qed.

(** C8. When a first call of [do] has ended (returned or raised), it has
    left the paths and the open-file table as they were, and a second call
    with the same command behaves exactly as a call made on a system with no
    history at all, given the same platform, user id, paths and the lines
    the peer sends from then on: same outcome, same events. And when both
    pipes are in place and both calls end, the trace holds two complete
    exchanges, each with its own two opens, one write, reads and two
    closes. *)
Theorem do_twice_two_independent_exchanges
    (E : env) (fuel1 fuel2 : nat) (command : string) (st0 : state) :
  fst (do E fuel1 command st0) <> Running ->
  let st1 := snd (do E fuel1 command st0) in
  let E2 := advance E (cursor st1) in
  let fresh := State (fs st0) 0 [] [] in
  opened st1 = opened st0
  /\ fs st1 = fs st0
  /\ fst (do E fuel2 command st1) = fst (do E2 fuel2 command fresh)
  /\ emitted st1 (snd (do E fuel2 command st1))
     = trace (snd (do E2 fuel2 command fresh))
  /\ (fst (do E fuel2 command st1) <> Running ->
      opened (snd (do E fuel2 command st1)) = opened st0)
  /\ (write_pipe_name E ∈ fs st0 ->
      read_pipe_name E ∈ fs st0 ->
      fst (do E fuel2 command st1) <> Running ->
      exists n1 n2,
        trace (snd (do E fuel2 command st1))
        = trace st0
            ++ (prelude E command
                  ++ reads E (read_pipe_name E) (cursor st0) (S n1)
                  ++ closing E)
            ++ (prelude E command
                  ++ reads E (read_pipe_name E) (cursor st0 + S n1) (S n2)
                  ++ closing E)).
Proof.
  intros Hfin st1 E2 fresh.
  assert (Hopened : opened st1 = opened st0)
    by (apply do_finished_opened, Hfin).
  assert (Hfs : fs st1 = fs st0) by apply do_fs.
  destruct (do_frame E fuel2 command st1) as (Hout & Htrace & _ & _).
  rewrite Hfs in Hout, Htrace. fold E2 fresh in Hout, Htrace.
  split; [exact Hopened | split; [exact Hfs | split; [exact Hout|]]].
  split; [|split].
  - unfold emitted. rewrite Htrace. apply drop_app_length.
  - intros Hfin2. rewrite do_finished_opened by exact Hfin2. exact Hopened.
  - intros Hw Hr Hfin2. subst st1. clear Hout Htrace E2 fresh Hopened Hfs.
    destruct (do_run_ok E fuel1 command st0)
      as [Hw'|_ Hr'|n1 _ _ Hstop1 Hn1|_ _ Hno];
      [contradiction | contradiction | | now destruct Hfin].
    cbn [snd] in *.
    match goal with
    | |- context [do E fuel2 command ?s] =>
        destruct (do_run_ok E fuel2 command s)
          as [Hw'|_ Hr'|n2 _ _ Hstop2 Hn2|_ _ Hno]
    end;
      [contradiction | contradiction | | now destruct Hfin2].
    exists n1, n2. cbn [snd trace cursor]. rewrite <- !app_assoc. reflexivity.
Qed.

Lemma do_twice_two_independent_exchanges_witness :
  fst (do (posix_peer ["one" +:+ LF; LF; "two" +:+ LF; LF]) 2 "Help"
          (idle posix_pipes)) = Returned ("one" +:+ LF)
  /\ fst (do (posix_peer ["one" +:+ LF; LF; "two" +:+ LF; LF]) 2 "Help"
             (snd (do (posix_peer ["one" +:+ LF; LF; "two" +:+ LF; LF]) 2
                      "Help" (idle posix_pipes))))
     = fst (do (posix_peer ["two" +:+ LF; LF]) 2 "Help" (idle posix_pipes)).
Proof.
  split; [reflexivity|].
  destruct (do_twice_two_independent_exchanges
              (posix_peer ["one" +:+ LF; LF; "two" +:+ LF; LF]) 2 2 "Help"
              (idle posix_pipes) ltac:(vm_compute; discriminate))
    as (_ & _ & Hsame & _).
  rewrite Hsame. reflexivity.
Defined.

(** ** C9: one exception class for both failures *)

(** Whatever [do] raises is a [PyAudacityException], and its argument is
    the message about the missing outbound pipe, the message about the
    missing inbound pipe, or a response that contains the failure marker. *)
Lemma do_raised_inv (E : env) (fuel : nat) (command : string) (st : state)
    (e : exn) :
  fst (do E fuel command st) = Raised e ->
  exists msg,
    e = PyAudacityException msg
    /\ (((write_pipe_name E ∉ fs st)
         /\ msg = write_pipe_name E +:+ not_exist_msg)
        \/ ((read_pipe_name E ∉ fs st)
            /\ msg = read_pipe_name E +:+ not_exist_msg)
        \/ (write_pipe_name E ∈ fs st /\ read_pipe_name E ∈ fs st
            /\ contains failure_marker msg = true)).
Proof.
  destruct (do_run_ok E fuel command st) as [Hw|Hw Hr|n Hw Hr Hstop Hn|Hw Hr Hno];
    cbn [fst]; intros He.
  - inversion He. eexists; split; [reflexivity | auto].
  - inversion He. eexists; split; [reflexivity | auto].
  - destruct (verdict_cases (buffered E (cursor st) n)) as [[Hm Hv]|[_ Hv]];
      rewrite Hv in He; [|discriminate He].
    inversion He. eexists; split; [reflexivity | auto].
  - discriminate He.
Qed.

(** C9. A missing pipe and a failure reported by the peer both make [do]
    raise the one class [PyAudacityException]; the exception carries its
    message and nothing else, so two exceptions raised by [do] are the same
    value exactly when their messages are the same text, and the kind of
    failure can be told only from that text: it is one of the two
    missing-pipe messages, or it is the peer's response and contains the
    failure marker. *)
Theorem do_failures_one_exception_class
    (E1 E2 : env) (fuel1 fuel2 : nat) (command1 command2 : string)
    (st1 st2 : state) (e1 e2 : exn) :
  fst (do E1 fuel1 command1 st1) = Raised e1 ->
  fst (do E2 fuel2 command2 st2) = Raised e2 ->
  class_of e1 = ClsPyAudacityException
  /\ class_of e2 = class_of e1
  /\ e1 = PyAudacityException (str_of e1)
  /\ (e1 = e2 <-> str_of e1 = str_of e2)
  /\ (str_of e1 = write_pipe_name E1 +:+ not_exist_msg
      \/ str_of e1 = read_pipe_name E1 +:+ not_exist_msg
      \/ contains failure_marker (str_of e1) = true).
Proof.
  intros H1 H2.
  destruct (do_raised_inv _ _ _ _ _ H1) as (m1 & -> & Hk1).
  destruct (do_raised_inv _ _ _ _ _ H2) as (m2 & -> & _).
  cbn [class_of str_of]. repeat split; try congruence.
  destruct Hk1 as [[_ ->] | [[_ ->] | (_ & _ & Hm)]]; auto.
Qed.

Lemma do_failures_one_exception_class_witness :
  fst (do (posix_peer []) 0 "Help" (idle ∅))
  = Raised (PyAudacityException
              ("/tmp/audacity_script_pipe.to.1000" +:+ not_exist_msg))
  /\ fst (do (posix_peer ["BatchCommand finished: Failed!" +:+ LF; LF]) 2
             "Nope" (idle posix_pipes))
     = Raised (PyAudacityException ("BatchCommand finished: Failed!" +:+ LF))
  /\ class_of (PyAudacityException ("BatchCommand finished: Failed!" +:+ LF))
     = class_of (PyAudacityException
                   ("/tmp/audacity_script_pipe.to.1000" +:+ not_exist_msg)).
Proof.
  assert (H1 : fst (do (posix_peer []) 0 "Help" (idle ∅))
               = Raised (PyAudacityException
                           ("/tmp/audacity_script_pipe.to.1000"
                            +:+ not_exist_msg)))
    by (vm_compute; reflexivity).
  assert (H2 : fst (do (posix_peer
                          ["BatchCommand finished: Failed!" +:+ LF; LF]) 2
                       "Nope" (idle posix_pipes))
               = Raised (PyAudacityException
                           ("BatchCommand finished: Failed!" +:+ LF)))
    by (vm_compute; reflexivity).
  split; [exact H1 | split; [exact H2|]].
  exact (proj1 (proj2 (do_failures_one_exception_class _ _ _ _ _ _ _ _ _ _
                         H1 H2))).
Defined.

(** ** C10: [save] deletes the target first *)

Lemma do_trace_no_unlink (E : env) (fuel : nat) (command : string)
    (st : state) :
  exists evs,
    trace (snd (do E fuel command st)) = trace st ++ evs
    /\ List.filter is_unlink evs = [].
Proof.
  destruct (do_run_ok E fuel command st); cbn [snd trace];
    eexists; (split; [reflexivity|]);
    try reflexivity.
  - now rewrite filter_exchange.
  - rewrite <- (app_nil_r (reads _ _ _ _)). now rewrite filter_exchange.
Qed.

(** [save], one statement at a time. *)
Lemma save_eq (E : env) (fuel : nat) (filename : string)
    (add_to_history compress allow_overwrite : pyval) (st : state) :
  save E fuel filename add_to_history compress allow_overwrite st =
  let st1 :=
    if PyVal.truthy allow_overwrite
    then if bool_decide (filename ∈ fs st)
         then State (fs st ∖ {[filename]}) (cursor st) (opened st)
                    (trace st ++ [EvExists filename; EvUnlink filename])
         else State (fs st) (cursor st) (opened st)
                    (trace st ++ [EvExists filename])
    else st in
  if negb (PyVal.isinstance_bool add_to_history)
  then (Raised (PyAudacityException
                  ("add_to_history argument must be a bool, not"
                   +:+ PyVal.str_type add_to_history)), st1)
  else if negb (PyVal.isinstance_bool compress)
  then (Raised (PyAudacityException
                  ("compress argument must be a bool, not"
                   +:+ PyVal.str_type compress)), st1)
  else do E fuel
         ("SaveProject2: Filename=" +:+ DQ +:+ filename +:+ DQ
          +:+ " AddToHistory=" +:+ DQ +:+ PyVal.str add_to_history +:+ DQ
          +:+ " Compress=" +:+ DQ +:+ PyVal.str compress +:+ DQ) st1.
Proof.
  unfold save, bind, Os.path_exists, Os.unlink, ret, raise, log.
  destruct (PyVal.truthy allow_overwrite); cbn [fs cursor opened trace];
    [destruct (bool_decide (filename ∈ fs st));
       cbn [fs cursor opened trace]; rewrite <- ?app_assoc; cbn [app]|];
    destruct (PyVal.isinstance_bool add_to_history);
    destruct (PyVal.isinstance_bool compress); reflexivity.
Qed.

(** C10. With [allow_overwrite] true, as it is by default, and the target
    path existing, the first two things [save] does are to check the path
    and to unlink it: this comes before the validation of [add_to_history]
    and [compress] (a call that then fails validation has deleted the file
    all the same) and before anything [do] does with the pipes, and it is
    the only unlink of the call. With [allow_overwrite] false, [save]
    unlinks nothing and the same paths exist after the call as before. *)
Theorem save_unlinks_target_first
    (E : env) (fuel : nat) (filename : string)
    (add_to_history compress : pyval) (st : state) :
  (filename ∈ fs st ->
   let res := save E fuel filename add_to_history compress (PyBool true) st in
   fs (snd res) = fs st ∖ {[filename]}
   /\ (filename ∉ fs (snd res))
   /\ (exists tl,
         emitted st (snd res) = EvExists filename :: EvUnlink filename :: tl
         /\ List.filter is_unlink tl = [])
   /\ (PyVal.isinstance_bool add_to_history
       && PyVal.isinstance_bool compress = false ->
       exists msg,
         res = (Raised (PyAudacityException msg),
                State (fs st ∖ {[filename]}) (cursor st) (opened st)
                      (trace st ++ [EvExists filename; EvUnlink filename])))
   /\ fs (snd (save_default E fuel filename st)) = fs st ∖ {[filename]})
  /\ (let res :=
        save E fuel filename add_to_history compress (PyBool false) st in
      fs (snd res) = fs st
      /\ List.filter is_unlink (emitted st (snd res)) = []).
Proof.
  split.
  - intros Hin.
    assert (Hgeneral : forall a c,
      let res := save E fuel filename a c (PyBool true) st in
      fs (snd res) = fs st ∖ {[filename]}
      /\ (exists tl,
            emitted st (snd res) = EvExists filename :: EvUnlink filename :: tl
            /\ List.filter is_unlink tl = [])
      /\ (PyVal.isinstance_bool a && PyVal.isinstance_bool c = false ->
          exists msg,
            res = (Raised (PyAudacityException msg),
                   State (fs st ∖ {[filename]}) (cursor st) (opened st)
                         (trace st ++ [EvExists filename; EvUnlink filename])))).
    { intros a c. cbv zeta. rewrite save_eq. cbn [PyVal.truthy].
      rewrite bool_decide_eq_true_2 by exact Hin. cbv zeta.
      destruct (PyVal.isinstance_bool a); cbn [negb andb];
        [destruct (PyVal.isinstance_bool c); cbn [negb]|].
      - match goal with
        | |- context [do E fuel ?cmd ?s] =>
            destruct (do_trace_no_unlink E fuel cmd s) as (evs & Htr & Hnone);
            pose proof (do_fs E fuel cmd s) as Hfs
        end.
        cbn [fs trace] in Htr, Hfs.
        split; [exact Hfs | split; [|discriminate]].
        exists evs. split; [|exact Hnone].
        unfold emitted. rewrite Htr, <- app_assoc. apply drop_app_length.
      - cbn [snd fs]. split; [reflexivity | split].
        + exists []. split; [apply emitted_app | reflexivity].
        + intros _. eexists; reflexivity.
      - cbn [snd fs]. split; [reflexivity | split].
        + exists []. split; [apply emitted_app | reflexivity].
        + intros _. eexists; reflexivity. }
    cbv zeta.
    destruct (Hgeneral add_to_history compress) as (Hfs & Htl & Hraise).
    destruct (Hgeneral (PyBool false) (PyBool false)) as (Hdef & _ & _).
    split; [exact Hfs | split; [|split; [exact Htl | split]]].
    + rewrite Hfs. intros Hc.
      apply elem_of_difference in Hc as [_ Hc].
      apply Hc, elem_of_singleton. reflexivity.
    + exact Hraise.
    + exact Hdef.
  - cbv zeta. rewrite save_eq. cbn [PyVal.truthy]. cbv zeta.
    destruct (PyVal.isinstance_bool add_to_history); cbn [negb];
      [destruct (PyVal.isinstance_bool compress); cbn [negb]|].
    + match goal with
      | |- context [do E fuel ?cmd st] =>
          destruct (do_trace_no_unlink E fuel cmd st) as (evs & Htr & Hnone);
          pose proof (do_fs E fuel cmd st) as Hfs
      end.
      split; [exact Hfs|].
      unfold emitted. rewrite Htr, drop_app_length. exact Hnone.
    + cbn [snd]. split; [reflexivity|].
      unfold emitted. now rewrite drop_all.
    + cbn [snd]. split; [reflexivity|].
      unfold emitted. now rewrite drop_all.
Qed.

Lemma save_unlinks_target_first_witness :
  "/home/al/song.aup3" ∈ fs (idle ({[ "/home/al/song.aup3" ]} ∪ posix_pipes))
  /\ ("/home/al/song.aup3"
        ∉ fs (snd (save (posix_peer ["ok" +:+ LF; LF]) 2 "/home/al/song.aup3"
                     (PyInt 1) (PyBool false) (PyBool true)
                     (idle ({[ "/home/al/song.aup3" ]} ∪ posix_pipes))))).
Proof.
  assert (Hin : "/home/al/song.aup3"
                  ∈ fs (idle ({[ "/home/al/song.aup3" ]} ∪ posix_pipes)))
    by in_fs.
  split; [exact Hin|].
  destruct (save_unlinks_target_first (posix_peer ["ok" +:+ LF; LF]) 2
              "/home/al/song.aup3" (PyInt 1) (PyBool false)
              (idle ({[ "/home/al/song.aup3" ]} ∪ posix_pipes)))
    as [Htrue _].
  exact (proj1 (proj2 (Htrue Hin))).
Defined.

(** * More properties of the module *)

(** ** Shared steps *)

Lemma require_true {B : Type} (msg : string) (k : unit -> IO B) (st : state) :
  bind (require true msg) k st = k tt st.
Proof. reflexivity. Qed.

Lemma require_false {B : Type} (msg : string) (k : unit -> IO B)
    (st : state) :
  bind (require false msg) k st = (Raised (PyAudacityException msg), st).
Proof. reflexivity. Qed.

(** With both pipes in place the one thing a call writes is its command
    followed by the terminator. *)
Lemma do_written (E : env) (fuel : nat) (command : string) (st : state) :
  write_pipe_name E ∈ fs st ->
  read_pipe_name E ∈ fs st ->
  List.filter is_write (emitted st (snd (do E fuel command st)))
  = [EvWrite (write_pipe_name E) (command +:+ eol E)].
Proof.
  intros Hw Hr.
  destruct (do_emitted_shape E fuel command st Hw Hr) as (k & tl & -> & Htl).
  rewrite filter_exchange by reflexivity.
  destruct Htl as [-> | ->]; reflexivity.
Qed.

(** With a pipe missing a call writes nothing. *)
Lemma do_nothing_written (E : env) (fuel : nat) (command : string)
    (st : state) :
  write_pipe_name E ∉ fs st \/ read_pipe_name E ∉ fs st ->
  List.filter is_write (emitted st (snd (do E fuel command st))) = [].
Proof.
  intros Hmissing.
  destruct (decide (write_pipe_name E ∈ fs st)) as [Hw|Hw].
  - destruct Hmissing as [Hw'|Hr]; [contradiction|].
    rewrite do_no_read_pipe by assumption. cbn [snd].
    now rewrite emitted_app.
  - rewrite do_no_write_pipe by assumption. cbn [snd].
    now rewrite emitted_app.
Qed.

Lemma join_nonempty_ends_LF (l : list string) :
  (forall x, In x l -> x = EmptyString \/ exists body, x = body +:+ LF) ->
  join l <> EmptyString ->
  exists body, join l = body +:+ LF.
Proof.
  induction l as [|x l IH]; intros Hall Hne; [now destruct Hne|].
  cbn [join] in *.
  destruct (String.string_dec (join l) EmptyString) as [Hempty|Hrest].
  - rewrite Hempty, append_nil_r in *.
    destruct (Hall x (or_introl eq_refl)) as [->|Hx]; [now destruct Hne|].
    exact Hx.
  - destruct IH as [body Hbody]; [|exact Hrest|].
    + intros y Hy. apply Hall. now right.
    + exists (x +:+ body). rewrite Hbody. now rewrite append_assoc.
Qed.

Lemma lines_from_In (E : env) (c n : nat) (x : string) :
  In x (lines_from E c n) -> exists i, i < n /\ x = inbound E (c + i).
Proof.
  revert c; induction n as [|n IH]; intros c Hin; [destruct Hin|].
  cbn [lines_from] in Hin. destruct Hin as [<-|Hin].
  - exists 0. split; [lia | now rewrite Nat.add_0_r].
  - destruct (IH _ Hin) as (i & Hi & ->).
    exists (S i). split; [lia | now rewrite Nat.add_succ_comm].
Qed.

(** ** What [do] returns and what it leaves behind *)

(** X1. What [do] returns is never the empty string and never contains the
    failure marker; it is the text of the lines read before the blank line
    that ended the response, of which there is at least one, and the blank
    line has been consumed from the pipe as well. *)
Theorem do_returned_text_nonempty_without_marker
    (E : env) (fuel : nat) (command : string) (st : state) (text : string) :
  fst (do E fuel command st) = Returned text ->
  text <> EmptyString
  /\ contains failure_marker text = false
  /\ exists n,
       0 < n
       /\ text = buffered E (cursor st) n
       /\ inbound E (cursor st + n) = LF
       /\ cursor (snd (do E fuel command st)) = cursor st + S n.
Proof.
  destruct (do_run_ok E fuel command st) as [Hw|Hw Hr|n Hw Hr Hstop Hn|Hw Hr Hno];
    cbn [fst snd cursor]; intros Hret; try discriminate Hret.
  destruct (verdict_cases (buffered E (cursor st) n)) as [[_ Hv]|[Hm Hv]];
    rewrite Hv in Hret; [discriminate Hret|].
  injection Hret as <-.
  destruct Hstop as [Hyes Hbefore].
  pose proof Hyes as Hyes'. apply stops_true_iff in Hyes' as [Hline Hbuf].
  split; [exact Hbuf | split; [exact Hm|]].
  exists n. repeat split; try assumption.
  destruct n as [|n]; [|lia].
  rewrite no_stop_at_0 in Hyes. discriminate Hyes.
Qed.

Lemma do_returned_text_nonempty_without_marker_witness :
  fst (do (posix_peer ["ok" +:+ LF; LF]) 2 "Help" (idle posix_pipes))
    = Returned ("ok" +:+ LF)
  /\ "ok" +:+ LF <> EmptyString.
Proof.
  assert (Hret : fst (do (posix_peer ["ok" +:+ LF; LF]) 2 "Help"
                         (idle posix_pipes)) = Returned ("ok" +:+ LF))
    by (vm_compute; reflexivity).
  split; [exact Hret|].
  exact (proj1 (do_returned_text_nonempty_without_marker _ _ _ _ _ Hret)).
Defined.




(** X4. When every line the peer delivers is empty (end of input) or ends
    in a line feed, the text [do] returns ends in a line feed. *)
Theorem do_returned_text_ends_with_line_feed
    (E : env) (fuel : nat) (command : string) (st : state) (text : string) :
  (forall i, inbound E (cursor st + i) = EmptyString
             \/ exists body, inbound E (cursor st + i) = body +:+ LF) ->
  fst (do E fuel command st) = Returned text ->
  exists body, text = body +:+ LF.
Proof.
  intros Hlines Hret.
  destruct (do_run_ok E fuel command st) as [Hw|Hw Hr|n Hw Hr Hstop Hn|Hw Hr Hno];
    cbn [fst] in Hret; try discriminate Hret.
  destruct (verdict_cases (buffered E (cursor st) n)) as [[_ Hv]|[_ Hv]];
    rewrite Hv in Hret; [discriminate Hret|].
  injection Hret as <-.
  destruct Hstop as [Hyes _]. apply stops_true_iff in Hyes as [_ Hbuf].
  apply join_nonempty_ends_LF; [|exact Hbuf].
  intros x Hx. apply lines_from_In in Hx as (i & _ & ->). apply Hlines.
Qed.

Lemma do_returned_text_ends_with_line_feed_witness :
  exists body,
    "one" +:+ LF +:+ "two" +:+ LF = body +:+ LF.
Proof.
  apply (do_returned_text_ends_with_line_feed
           (posix_peer ["one" +:+ LF; "two" +:+ LF; LF]) 3 "Help"
           (idle posix_pipes)).
  - intros [|[|[|i]]]; [right; eexists; reflexivity ..
                       | right; exists EmptyString; reflexivity
                       | left; destruct i; reflexivity].
  - vm_compute. reflexivity.
Defined.

(** ** [save] and its [allow_overwrite] flag *)


Lemma after_overwrite_facts (filename : string) (allow_overwrite : pyval)
    (st : state) :
  fs (after_overwrite filename allow_overwrite st)
  = (if PyVal.truthy allow_overwrite && bool_decide (filename ∈ fs st)
     then fs st ∖ {[filename]} else fs st)
  /\ exists pre,
       trace (after_overwrite filename allow_overwrite st) = trace st ++ pre
       /\ existsb is_unlink pre
          = PyVal.truthy allow_overwrite && bool_decide (filename ∈ fs st).
Proof.
  unfold after_overwrite.
  destruct (PyVal.truthy allow_overwrite); cbn [andb];
    [destruct (bool_decide (filename ∈ fs st))|]; cbn [fs trace].
  - split; [reflexivity|]. eexists; split; reflexivity.
  - split; [reflexivity|]. eexists; split; reflexivity.
  - split; [reflexivity|]. exists []. split; [now rewrite app_nil_r|reflexivity].
Qed.



(** X6. [save] validates [add_to_history] before [compress]: a value that
    is not a [bool] in the first place is the one reported, whatever the
    second is, and the message runs the word [not] into the type with no
    space. Either failure comes before anything is done with the pipes. *)
Theorem save_validates_add_to_history_then_compress
    (E : env) (fuel : nat) (filename : string)
    (add_to_history compress allow_overwrite : pyval) (st : state) :
  (PyVal.isinstance_bool add_to_history = false ->
   fst (save E fuel filename add_to_history compress allow_overwrite st)
   = Raised (PyAudacityException
               ("add_to_history argument must be a bool, not"
                +:+ PyVal.str_type add_to_history))
   /\ List.filter is_pipe_io
        (emitted st (snd (save E fuel filename add_to_history compress
                               allow_overwrite st))) = [])
  /\ (PyVal.isinstance_bool add_to_history = true ->
      PyVal.isinstance_bool compress = false ->
      fst (save E fuel filename add_to_history compress allow_overwrite st)
      = Raised (PyAudacityException
                  ("compress argument must be a bool, not"
                   +:+ PyVal.str_type compress))
      /\ List.filter is_pipe_io
           (emitted st (snd (save E fuel filename add_to_history compress
                                  allow_overwrite st))) = []).
Proof.
  destruct (after_overwrite_facts filename allow_overwrite st)
    as (_ & pre & Hpre & _).
  assert (Hquiet : List.filter is_pipe_io
                     (emitted st (after_overwrite filename allow_overwrite st))
                   = []).
  { unfold emitted, after_overwrite.
    destruct (PyVal.truthy allow_overwrite);
      [destruct (bool_decide (filename ∈ fs st))|]; cbn [trace];
      rewrite ?drop_app_length, ?drop_all; reflexivity. }
  split.
  - intros Ha. rewrite save_eq. cbv zeta.
    fold (after_overwrite filename allow_overwrite st).
    rewrite Ha. cbn [negb fst snd]. split; [reflexivity | exact Hquiet].
  - intros Ha Hc. rewrite save_eq. cbv zeta.
    fold (after_overwrite filename allow_overwrite st).
    rewrite Ha, Hc. cbn [negb fst snd]. split; [reflexivity | exact Hquiet].
Qed.

Lemma save_validates_add_to_history_then_compress_witness :
  fst (save (posix_peer []) 0 "/home/al/song.aup3" PyNone (PyInt 0)
            (PyBool false) (idle posix_pipes))
  = Raised (PyAudacityException
              "add_to_history argument must be a bool, not<class 'NoneType'>").
Proof.
  exact (proj1 (proj1 (save_validates_add_to_history_then_compress
                         (posix_peer []) 0 "/home/al/song.aup3" PyNone
                         (PyInt 0) (PyBool false) (idle posix_pipes))
                  eq_refl)).
Defined.

(** X7. Asked to save onto the path of the outbound pipe with a truthy
    [allow_overwrite], [save] unlinks the pipe and then fails in [do] with
    the message that the pipe does not exist; the pipe is gone afterwards
    and nothing was sent. *)
Theorem save_onto_outbound_pipe_removes_it
    (E : env) (fuel : nat) (add_to_history compress allow_overwrite : pyval)
    (st : state) :
  write_pipe_name E ∈ fs st ->
  PyVal.truthy allow_overwrite = true ->
  PyVal.isinstance_bool add_to_history = true ->
  PyVal.isinstance_bool compress = true ->
  fst (save E fuel (write_pipe_name E) add_to_history compress
            allow_overwrite st)
  = Raised (PyAudacityException (write_pipe_name E +:+ not_exist_msg))
  /\ (write_pipe_name E
        ∉ fs (snd (save E fuel (write_pipe_name E) add_to_history compress
                        allow_overwrite st)))
  /\ List.filter is_write
       (emitted st (snd (save E fuel (write_pipe_name E) add_to_history
                              compress allow_overwrite st))) = [].
Proof.
  intros Hw Hao Ha Hc.
  rewrite save_eq. cbv zeta.
  rewrite Hao, Ha, Hc, (bool_decide_eq_true_2 _ Hw). cbn [negb].
  match goal with
  | |- context [do E fuel ?cmd ?s] =>
      assert (Hgone : write_pipe_name E ∉ fs s)
  end.
  { cbn [fs]. intros Hin. apply elem_of_difference in Hin as [_ Hin].
    apply Hin, elem_of_singleton. reflexivity. }
  rewrite do_no_write_pipe by exact Hgone.
  cbn [fst snd fs]. split; [reflexivity | split; [exact Hgone|]].
  unfold emitted. cbn [trace]. rewrite <- app_assoc, drop_app_length.
  reflexivity.
Qed.

Lemma save_onto_outbound_pipe_removes_it_witness :
  fst (save (posix_peer []) 0 "/tmp/audacity_script_pipe.to.1000"
            (PyBool false) (PyBool false) (PyBool true) (idle posix_pipes))
  = Raised (PyAudacityException
              ("/tmp/audacity_script_pipe.to.1000" +:+ not_exist_msg)).
Proof.
  exact (proj1 (save_onto_outbound_pipe_removes_it (posix_peer []) 0
                  (PyBool false) (PyBool false) (PyBool true)
                  (idle posix_pipes) ltac:(in_fs) eq_refl eq_refl eq_refl)).
Defined.

(** ** [open], [export] and [import_audio] *)

(** Two states with the same paths and the same position in the inbound
    pipe give a call of [do] the same outcome and the same events. *)
Lemma do_same_from (E : env) (fuel : nat) (command : string)
    (st1 st2 : state) :
  fs st1 = fs st2 ->
  cursor st1 = cursor st2 ->
  fst (do E fuel command st1) = fst (do E fuel command st2)
  /\ emitted st1 (snd (do E fuel command st1))
     = emitted st2 (snd (do E fuel command st2)).
Proof.
  intros Hfs Hc.
  destruct (do_frame E fuel command st1) as (Ho1 & Ht1 & _).
  destruct (do_frame E fuel command st2) as (Ho2 & Ht2 & _).
  rewrite Hfs, Hc in Ho1, Ht1.
  split; [congruence|].
  unfold emitted. now rewrite Ht1, Ht2, !drop_app_length.
Qed.

(** X8. [open] makes its checks in this order: the type of [filename]
    (and the message for a bad [filename] names the type of
    [add_to_history], not of [filename]), then the existence of the file,
    then the type of [add_to_history]; so a missing file is reported even
    when [add_to_history] is not a [bool]. A failed check leaves at most
    the one existence check in the trace; only when all three pass does
    [open] call [do], with both arguments put between quotes as they are.
    [open] never changes the paths that exist. *)
Theorem open_checks_in_order
    (E : env) (fuel : nat) (filename add_to_history : pyval) (st : state) :
  (PyType.isinstance_str filename = false ->
   open E fuel filename add_to_history st
   = (Raised (PyAudacityException
                ("filename argument must be a Path or str, not"
                 +:+ PyVal.str_type add_to_history)), st))
  /\ (forall f, filename = PyStr f -> f ∉ fs st ->
        open E fuel filename add_to_history st
        = (Raised (PyAudacityException (f +:+ " file not found.")),
           log (EvExists f) st))
  /\ (forall f, filename = PyStr f -> f ∈ fs st ->
        PyVal.isinstance_bool add_to_history = false ->
        open E fuel filename add_to_history st
        = (Raised (PyAudacityException
                     ("add_to_history argument must be a bool, not"
                      +:+ PyVal.str_type add_to_history)),
           log (EvExists f) st))
  /\ (forall f b, filename = PyStr f -> f ∈ fs st ->
        add_to_history = PyBool b ->
        open E fuel filename add_to_history st
        = do E fuel
             ("OpenProject2: Filename=" +:+ DQ +:+ f +:+ DQ
              +:+ " AddToHistory=" +:+ DQ
              +:+ (if b then "True" else "False") +:+ DQ)
             (log (EvExists f) st))
  /\ fs (snd (open E fuel filename add_to_history st)) = fs st.
Proof.
  split; [|split; [|split; [|split]]].
  - intros Hf. unfold open. now rewrite Hf, require_false.
  - intros f -> Hin. unfold open. cbn [PyType.isinstance_str PyVal.str].
    rewrite require_true. unfold bind at 1, Os.path_exists.
    rewrite (bool_decide_eq_false_2 _ Hin). now rewrite require_false.
  - intros f -> Hin Ha. unfold open. cbn [PyType.isinstance_str PyVal.str].
    rewrite require_true. unfold bind at 1, Os.path_exists.
    rewrite (bool_decide_eq_true_2 _ Hin), require_true, Ha.
    now rewrite require_false.
  - intros f b -> Hin ->. unfold open.
    cbn [PyType.isinstance_str PyVal.isinstance_bool PyVal.str].
    rewrite require_true. unfold bind at 1, Os.path_exists.
    rewrite (bool_decide_eq_true_2 _ Hin), !require_true.
    destruct b; reflexivity.
  - unfold open.
    destruct (PyType.isinstance_str filename);
      [rewrite require_true | now rewrite require_false].
    unfold bind at 1, Os.path_exists.
    destruct (bool_decide (PyVal.str filename ∈ fs st));
      [rewrite require_true | now rewrite require_false].
    destruct (PyVal.isinstance_bool add_to_history);
      [rewrite require_true | now rewrite require_false].
    now rewrite do_fs.
Qed.

Lemma open_checks_in_order_witness :
  open (posix_peer []) 0 (PyInt 3) (PyBool true) (idle posix_pipes)
  = (Raised (PyAudacityException
               "filename argument must be a Path or str, not<class 'bool'>"),
     idle posix_pipes)
  /\ fst (open (posix_peer []) 0 (PyStr "/home/al/song.aup3") (PyInt 1)
               (idle posix_pipes))
     = Raised (PyAudacityException "/home/al/song.aup3 file not found.").
Proof.
  destruct (open_checks_in_order (posix_peer []) 0 (PyInt 3) (PyBool true)
              (idle posix_pipes)) as (Hbad & _).
  destruct (open_checks_in_order (posix_peer []) 0
              (PyStr "/home/al/song.aup3") (PyInt 1) (idle posix_pipes))
    as (_ & Hmissing & _).
  split; [exact (Hbad eq_refl)|].
  rewrite (Hmissing _ eq_refl ltac:(not_in_fs)). reflexivity.
Defined.

(** X9. [export] insists that the file it is asked to export to exists
    already: when it does not, [export] raises [file not found] and nothing
    is written to the pipe. When it does, a [bool] passes the test for
    [num_channels] (a [bool] is an [int]) and is sent as [True] or
    [False]. Whatever happens, [export] changes no path. *)
Theorem export_requires_existing_target
    (E : env) (fuel : nat) (filename : string) (num_channels : pyval)
    (st : state) :
  (filename ∉ fs st ->
   export E fuel filename num_channels st
   = (Raised (PyAudacityException (filename +:+ " file not found.")),
      log (EvExists filename) st))
  /\ (List.filter is_write
        (emitted st (snd (export E fuel filename num_channels st))) <> [] ->
      filename ∈ fs st /\ PyType.isinstance_int num_channels = true)
  /\ (forall b, filename ∈ fs st -> num_channels = PyBool b ->
        export E fuel filename num_channels st
        = do E fuel
             ("Export2: Filename=" +:+ DQ +:+ filename +:+ DQ
              +:+ " NumChannels=" +:+ DQ
              +:+ (if b then "True" else "False") +:+ DQ)
             (log (EvExists filename) st))
  /\ fs (snd (export E fuel filename num_channels st)) = fs st.
Proof.
  assert (Heq :
    export E fuel filename num_channels st
    = if bool_decide (filename ∈ fs st)
      then if PyType.isinstance_int num_channels
           then do E fuel
                  ("Export2: Filename=" +:+ DQ +:+ filename +:+ DQ
                   +:+ " NumChannels=" +:+ DQ +:+ PyVal.str num_channels
                   +:+ DQ)
                  (log (EvExists filename) st)
           else (Raised (PyAudacityException
                           ("num_channels argument must be a int, not"
                            +:+ PyVal.str_type num_channels)),
                 log (EvExists filename) st)
      else (Raised (PyAudacityException (filename +:+ " file not found.")),
            log (EvExists filename) st)).
  { unfold export, bind, Os.path_exists, require, ret, raise.
    destruct (bool_decide (filename ∈ fs st));
      [destruct (PyType.isinstance_int num_channels)|]; reflexivity. }
  assert (Hquiet : List.filter is_write
                     (emitted st (log (EvExists filename) st)) = []).
  { unfold emitted, log. cbn [trace]. now rewrite drop_app_length. }
  rewrite Heq.
  destruct (decide (filename ∈ fs st)) as [Hin|Hin].
  - rewrite (bool_decide_eq_true_2 _ Hin).
    split; [intros Hc; contradiction | split; [|split]].
    + destruct (PyType.isinstance_int num_channels); [auto|].
      cbn [snd]. rewrite Hquiet. intros Hc. now destruct Hc.
    + intros b _ ->. cbn [PyType.isinstance_int PyVal.str].
      destruct b; reflexivity.
    + destruct (PyType.isinstance_int num_channels);
        [now rewrite do_fs | reflexivity].
  - rewrite (bool_decide_eq_false_2 _ Hin).
    split; [reflexivity | split; [|split]].
    + cbn [snd]. rewrite Hquiet. intros Hc. now destruct Hc.
    + intros b Hc. contradiction.
    + reflexivity.
Qed.

Lemma export_requires_existing_target_witness :
  fst (export (posix_peer ["ok" +:+ LF; LF]) 2 "/home/al/new.wav" (PyInt 2)
              (idle posix_pipes))
  = Raised (PyAudacityException "/home/al/new.wav file not found.").
Proof.
  destruct (export_requires_existing_target (posix_peer ["ok" +:+ LF; LF]) 2
              "/home/al/new.wav" (PyInt 2) (idle posix_pipes))
    as (Hmissing & _).
  rewrite (Hmissing ltac:(not_in_fs)). reflexivity.
Defined.

(** X10. [import_audio] checks that the file exists and then sends the bare
    command [ImportAudio]: the file name reaches the peer in no way. Two
    calls for two existing files have the same outcome and differ in
    nothing but the path of the existence check. *)
Theorem import_audio_never_sends_filename
    (E : env) (fuel : nat) (filename other : string) (st : state) :
  filename ∈ fs st ->
  other ∈ fs st ->
  import_audio E fuel filename st
  = do E fuel "ImportAudio" (log (EvExists filename) st)
  /\ fst (import_audio E fuel filename st)
     = fst (import_audio E fuel other st)
  /\ emitted (log (EvExists filename) st)
       (snd (import_audio E fuel filename st))
     = emitted (log (EvExists other) st)
         (snd (import_audio E fuel other st))
  /\ (write_pipe_name E ∈ fs st -> read_pipe_name E ∈ fs st ->
      List.filter is_write (emitted st (snd (import_audio E fuel filename st)))
      = [EvWrite (write_pipe_name E) ("ImportAudio" +:+ eol E)]).
Proof.
  intros Hin Hother.
  assert (Heq : forall f, f ∈ fs st ->
            import_audio E fuel f st
            = do E fuel "ImportAudio" (log (EvExists f) st)).
  { intros f Hf. unfold import_audio, bind at 1, Os.path_exists.
    now rewrite (bool_decide_eq_true_2 _ Hf), require_true. }
  rewrite !Heq by assumption.
  destruct (do_same_from E fuel "ImportAudio" (log (EvExists filename) st)
              (log (EvExists other) st) eq_refl eq_refl) as [Hout Hev].
  split; [reflexivity | split; [exact Hout | split; [exact Hev|]]].
  intros Hw Hr.
  pose proof (do_written E fuel "ImportAudio" (log (EvExists filename) st)
                Hw Hr) as Hwr.
  unfold emitted in *. cbn [trace log] in *.
  destruct (do_trace_no_unlink E fuel "ImportAudio"
              (log (EvExists filename) st)) as (evs & Htr & _).
  cbn [trace log] in Htr. rewrite Htr in *.
  rewrite drop_app_length in Hwr.
  rewrite <- app_assoc, drop_app_length. cbn [app List.filter is_write].
  exact Hwr.
Qed.

Lemma import_audio_never_sends_filename_witness :
  fst (import_audio (posix_peer ["ok" +:+ LF; LF]) 2
         "/tmp/audacity_script_pipe.to.1000" (idle posix_pipes))
  = fst (import_audio (posix_peer ["ok" +:+ LF; LF]) 2
           "/tmp/audacity_script_pipe.from.1000" (idle posix_pipes)).
Proof.
  exact (proj1 (proj2 (import_audio_never_sends_filename
                         (posix_peer ["ok" +:+ LF; LF]) 2
                         "/tmp/audacity_script_pipe.to.1000"
                         "/tmp/audacity_script_pipe.from.1000"
                         (idle posix_pipes) ltac:(in_fs) ltac:(in_fs)))).
Defined.

(** ** Letters *)

Ltac by_all_characters a :=
  destruct a as [[] [] [] [] [] [] [] []]; vm_compute;
  first [reflexivity | discriminate | intros; first [reflexivity | discriminate]].

Lemma lower_is_not_upper (a : ascii) :
  PyAscii.is_upper (PyAscii.lower a) = false.
Proof. by_all_characters a. Qed.

Lemma upper_is_upper_cased (a : ascii) :
  PyAscii.is_upper (PyAscii.upper a) = true -> PyAscii.is_cased a = true.
Proof. by_all_characters a. Qed.

Lemma upper_of_lower (a : ascii) :
  PyAscii.is_lower (PyAscii.lower a) = true ->
  PyAscii.upper (PyAscii.lower a) = PyAscii.upper a.
Proof. by_all_characters a. Qed.

(** In a title-cased string no capital follows a capital. *)
Lemma title_no_capital_after_capital (s : string) (x y : ascii) (r : string) :
  PyAscii.title s = String x (String y r) ->
  PyAscii.is_upper x = true ->
  PyAscii.is_upper y = false.
Proof.
  destruct s as [|a [|b s]]; cbn; try discriminate.
  intros Heq Hx. injection Heq as <- <- _.
  rewrite (upper_is_upper_cased a Hx). apply lower_is_not_upper.
Qed.

(** A string whose lower-case form starts with a small letter: raising its
    first character and lowering the rest raises that letter. *)
Lemma upper_first_of_lowered (s : string) (h : ascii) (t : string) :
  PyAscii.str_lower s = String h t ->
  PyAscii.is_lower h = true ->
  PyAscii.upper_first_lower_rest s = String (PyAscii.upper h) t.
Proof.
  destruct s as [|a r]; cbn; [discriminate|].
  intros Heq Hh. injection Heq as <- <-.
  now rewrite upper_of_lower.
Qed.

(** ** [noise], [tone] and [pluck] *)

(** X11. [noise] compares its [noise_type] with the list of value strings,
    and a member of [NoiseType] equals none of them: called with any member
    of the enumeration, its default [NoiseType.WHITE] included, [noise]
    raises the [noise_type] error and does nothing else. Called with the
    member's value as a plain string and an amplitude of 0 or 1, it sends
    the command. *)
Theorem noise_rejects_enum_members
    (E : env) (fuel : nat) (m : NoiseType) (amplitude : pyval) (st : state) :
  noise E fuel (Member m) amplitude st
  = (Raised (PyAudacityException
               ("noise_type argument must be one of "
                +:+ "['White', 'Pink', 'Brownian'], got "
                +:+ DQ +:+ value m +:+ DQ)), st)
  /\ (PyType.isinstance_int amplitude = true ->
      (0 <= PyType.int_value amplitude <= 1)%Z ->
      noise E fuel (Plain (PyStr (value m))) amplitude st
      = do E fuel
           ("Noise: Type=" +:+ DQ +:+ value m +:+ DQ
            +:+ " Amplitude=" +:+ DQ +:+ PyVal.str amplitude +:+ DQ) st).
Proof.
  split.
  - unfold noise. cbn [arg_in]. rewrite require_false. reflexivity.
  - intros Hint [Hlo Hhi]. unfold noise.
    assert (Hin : arg_in (Plain (En := NoiseType) (PyStr (value m)))
                    valid_noise_types = true)
      by (destruct m; vm_compute; reflexivity).
    rewrite Hin, require_true, Hint, require_true.
    apply Z.leb_le in Hlo, Hhi. rewrite Hlo, Hhi. cbn [andb].
    rewrite require_true. reflexivity.
Qed.

Lemma noise_rejects_enum_members_witness :
  fst (noise (posix_peer ["ok" +:+ LF; LF]) 2 (Plain (PyStr "Pink"))
             (PyInt 1) (idle posix_pipes))
  = Returned ("ok" +:+ LF).
Proof.
  destruct (noise_rejects_enum_members (posix_peer ["ok" +:+ LF; LF]) 2 PINK
              (PyInt 1) (idle posix_pipes)) as [_ Hplain].
  cbn [value NoiseType_enum] in Hplain.
  rewrite (Hplain eq_refl ltac:(cbn; lia)). reflexivity.
Defined.

(** X12. [tone] accepts a waveform exactly when its lower-case form is one
    of [sine], [square], [sawtooth] and [square, no alias], and then sends
    it in the one spelling with a capital first letter. So
    [ToneWaveform.TRIANGLE], although a member of the enumeration, is always
    refused, and the other four members are sent under their own value. A
    refusal leaves the state untouched. *)
Theorem tone_waveform_canonical_triangle_refused
    (E : env) (fuel : nat) (frequency amplitude : pyval)
    (waveform : arg ToneWaveform) (st : state) :
  PyType.isinstance_int frequency = true ->
  PyType.isinstance_int amplitude = true ->
  ((exists msg,
      tone E fuel frequency amplitude waveform st
      = (Raised (PyAudacityException msg), st))
   \/ (exists canonical,
         canonical ∈ ["Sine"; "Square"; "Sawtooth"; "Square, no alias"]
         /\ PyAscii.str_lower canonical
            = PyAscii.str_lower (arg_str waveform)
         /\ tone E fuel frequency amplitude waveform st
            = do E fuel
                 ("Tone: Frequency=" +:+ DQ +:+ PyVal.str frequency +:+ DQ
                  +:+ " Amplitude=" +:+ DQ +:+ PyVal.str amplitude +:+ DQ
                  +:+ " Waveform=" +:+ DQ +:+ canonical +:+ DQ) st))
  /\ (exists msg,
        tone E fuel frequency amplitude (Member TRIANGLE) st
        = (Raised (PyAudacityException msg), st))
  /\ (forall m, m <> TRIANGLE ->
        tone E fuel frequency amplitude (Member m) st
        = do E fuel
             ("Tone: Frequency=" +:+ DQ +:+ PyVal.str frequency +:+ DQ
              +:+ " Amplitude=" +:+ DQ +:+ PyVal.str amplitude +:+ DQ
              +:+ " Waveform=" +:+ DQ +:+ value m +:+ DQ) st).
Proof.
  intros Hf Ha.
  assert (Heq : forall wf,
    tone E fuel frequency amplitude wf st
    = if bool_decide (PyAscii.str_lower (arg_str wf)
                        ∈ ["sine"; "square"; "sawtooth"; "square, no alias"])
      then do E fuel
             ("Tone: Frequency=" +:+ DQ +:+ PyVal.str frequency +:+ DQ
              +:+ " Amplitude=" +:+ DQ +:+ PyVal.str amplitude +:+ DQ
              +:+ " Waveform=" +:+ DQ
              +:+ PyAscii.upper_first_lower_rest (arg_str wf) +:+ DQ) st
      else (Raised (PyAudacityException
              ("waveform argument must be one of " +:+ DQ +:+ "Sine" +:+ DQ
               +:+ ", " +:+ DQ +:+ "Square" +:+ DQ +:+ ", " +:+ DQ
               +:+ "Sawtooth" +:+ DQ +:+ ", or " +:+ DQ
               +:+ "Square, no alias" +:+ DQ)), st)).
  { intros wf. unfold tone. cbv zeta. rewrite Hf, Ha, !require_true.
    destruct (bool_decide _); [now rewrite require_true|].
    now rewrite require_false. }
  split; [|split].
  - rewrite Heq. case_bool_decide as Hin; [right | left; eauto].
    assert (Hcanon : exists h t,
              PyAscii.str_lower (arg_str waveform) = String h t
              /\ PyAscii.is_lower h = true
              /\ String (PyAscii.upper h) t
                 ∈ ["Sine"; "Square"; "Sawtooth"; "Square, no alias"]
              /\ PyAscii.str_lower (String (PyAscii.upper h) t)
                 = String h t).
    { repeat (apply elem_of_cons in Hin as [Hin|Hin];
              [rewrite Hin; do 2 eexists;
               split; [reflexivity | split; [reflexivity|]];
               split; [compute_done | reflexivity]|]).
      now apply elem_of_nil in Hin. }
    destruct Hcanon as (h & t & Hlow & Hh & Hmem & Hback).
    exists (String (PyAscii.upper h) t).
    rewrite (upper_first_of_lowered _ _ _ Hlow Hh), Hlow.
    split; [exact Hmem | split; [exact Hback | reflexivity]].
  - rewrite Heq. eexists. reflexivity.
  - intros m Hm. rewrite Heq. destruct m; try (now destruct Hm); reflexivity.
Qed.

Lemma tone_waveform_canonical_triangle_refused_witness :
  tone (posix_peer []) 0 (PyInt 440) (PyInt 1) (Member SQUARE_NO_ALIAS)
       (idle posix_pipes)
  = do (posix_peer []) 0
       ("Tone: Frequency=" +:+ DQ +:+ "440" +:+ DQ
        +:+ " Amplitude=" +:+ DQ +:+ "1" +:+ DQ
        +:+ " Waveform=" +:+ DQ +:+ "Square, no alias" +:+ DQ)
       (idle posix_pipes).
Proof.
  destruct (tone_waveform_canonical_triangle_refused (posix_peer []) 0
              (PyInt 440) (PyInt 1) (Member SINE) (idle posix_pipes)
              eq_refl eq_refl) as (_ & _ & Hmembers).
  exact (Hmembers SQUARE_NO_ALIAS ltac:(discriminate)).
Defined.



(** ** [find_clipping] and [beat_finder] *)





(** ** [nyquist_prompt], [get_info], [select_tracks], [set_preference] *)




Lemma title_is_not (s : string) (x y : ascii) (r : string) :
  PyAscii.is_upper x = true ->
  PyAscii.is_upper y = true ->
  PyAscii.title s <> String x (String y r).
Proof.
  intros Hx Hy Heq.
  rewrite (title_no_capital_after_capital s x y r Heq Hx) in Hy.
  discriminate Hy.
Qed.

(** X17. [get_info] compares the title case of [format] with [JSON],
    [LISP] and [Brief], and no title-cased text has two capitals in a row:
    the only formats [get_info] lets through are those whose title case is
    [Brief]. Called with the format [JSON], its default, or [LISP], in any
    mix of cases, it raises and sends nothing. *)
Theorem get_info_lets_only_brief_through
    (E : env) (fuel : nat) (type format : string) (st : state) :
  PyAscii.is_ascii type = true ->
  PyAscii.is_ascii format = true ->
  ((exists msg,
      get_info E fuel type format st
      = (Raised (PyAudacityException msg), st))
   \/ (PyAscii.title format = "Brief"
       /\ get_info E fuel type format st
          = do E fuel
               ("GetInfo: Type=" +:+ DQ +:+ type +:+ DQ
                +:+ " Format=" +:+ DQ +:+ format +:+ DQ) st))
  /\ (PyAscii.str_lower format = "json" \/ PyAscii.str_lower format = "lisp" ->
      exists msg,
        get_info E fuel type format st
        = (Raised (PyAudacityException msg), st)).
Proof.
  intros _ _.
  assert (Hcases :
    (exists msg,
       get_info E fuel type format st
       = (Raised (PyAudacityException msg), st))
    \/ (PyAscii.title format = "Brief"
        /\ get_info E fuel type format st
           = do E fuel
                ("GetInfo: Type=" +:+ DQ +:+ type +:+ DQ
                 +:+ " Format=" +:+ DQ +:+ format +:+ DQ) st)).
  { unfold get_info.
    case_bool_decide as Htype;
      [rewrite require_true | rewrite require_false; eauto].
    case_bool_decide as Hformat;
      [rewrite require_true | rewrite require_false; eauto].
    right. split; [|reflexivity].
    apply elem_of_cons in Hformat as [Hj|Hformat];
      [now apply title_is_not in Hj|].
    apply elem_of_cons in Hformat as [Hl|Hformat];
      [now apply title_is_not in Hl|].
    apply elem_of_cons in Hformat as [Hb|Hformat]; [exact Hb|].
    now apply elem_of_nil in Hformat. }
  split; [exact Hcases|].
  intros Hlow. destruct Hcases as [Hraised | [Hbrief _]]; [exact Hraised|].
  exfalso.
  destruct format as [|a [|b r]]; cbn in Hbrief; try discriminate Hbrief.
  injection Hbrief as Ha _.
  destruct Hlow as [Hlow|Hlow]; cbn in Hlow; injection Hlow as Hl _;
    revert Ha Hl; clear; by_all_characters a.
Qed.

Lemma get_info_lets_only_brief_through_witness :
  exists msg,
    get_info (posix_peer ["ok" +:+ LF; LF]) 2 "Commands" "JSON"
             (idle posix_pipes)
    = (Raised (PyAudacityException msg), idle posix_pipes).
Proof.
  apply (get_info_lets_only_brief_through (posix_peer ["ok" +:+ LF; LF]) 2
           "Commands" "JSON" (idle posix_pipes) eq_refl eq_refl).
  left. reflexivity.
Defined.


Lemma quoted_tail_not_empty (a t : string) : a +:+ DQ +:+ t <> a.
Proof.
  induction a as [|x a IH].
  - rewrite append_nil_l. unfold DQ. rewrite append_cons. discriminate.
  - rewrite append_cons. intros Heq. injection Heq as Heq. now apply IH.
Qed.

(** X19. [set_preference] puts [name] and [value] between double quotes
    without escaping anything: a name that itself contains a quote, the
    word [Value=] and another quote sends the same line as the shorter name
    with a longer value, so different arguments can reach the peer as the
    same command. *)
Theorem set_preference_does_not_escape_quotes
    (E : env) (fuel : nat) (a b c : string) (reload : pyval) (st : state) :
  set_preference E fuel
    (PyStr (a +:+ DQ +:+ " Value=" +:+ DQ +:+ b)) (PyStr c) reload st
  = set_preference E fuel
      (PyStr a) (PyStr (b +:+ DQ +:+ " Value=" +:+ DQ +:+ c)) reload st
  /\ PyStr (a +:+ DQ +:+ " Value=" +:+ DQ +:+ b) <> PyStr a.
Proof.
  split.
  - unfold set_preference. cbn [PyType.isinstance_str PyVal.str].
    rewrite !require_true.
    destruct (PyVal.isinstance_bool reload);
      [rewrite !require_true | now rewrite !require_false].
    cbv zeta. f_equal. f_equal. f_equal.
    now rewrite !append_assoc.
  - intros Heq. injection Heq as Heq.
    now apply quoted_tail_not_empty in Heq.
Qed.
